(** * mock-http: the chaos behaviour engine of [server.js]

    A shallow embedding of the three core pieces of [src/server.js]:
    the behaviour store ([behavior], [POST /api/behavior],
    [POST /api/behavior/reset]), the request recorder ([receivedLog],
    [logReceived]) and the upload responder ([handle]).

    Conventions of the embedding.

    - JavaScript values are the inductive [value]; a property that is
      absent reads as [VUndefined].
    - JavaScript numbers are [number]: [NaN], the two infinities and the
      finite values.  The handlers never do arithmetic on a number: they
      test it for truthiness, compare it with 0, take [Math.max] with 0,
      use it as a property key and print it.  Finite values are taken to be
      integers (HTTP status codes, milliseconds, byte counts); a finite
      value that is not an integer is outside the model.  [-0] is
      identified with [0] (both are falsy, print as 0 and are replaced by
      [+0] or 500 before being stored).
    - [Number(s)] on a string, and the exponent form in which a number
      of magnitude 1e21 or more is printed, are the language's own and
      not code of the repository; they are the methods of the class
      [JSRuntime], so every theorem holds for whatever they return.
    - A conversion that raises a [TypeError] ([String] or [Number] of an
      object that carries its own [toString], which JSON cannot make a
      function) is [None]; a handler that raises is the answer [Raised],
      with the assignments made before the exception kept.
    - [handle] is an [async] function with one [await]: it is cut at the
      [await] into the part before it ([handle]) and its continuation
      ([handle_resume]), and the event loop is the function [step] over
      the events the server can receive. *)

From Stdlib Require Import Ascii String ZArith.
From stdpp Require Import gmap strings list fin_maps pretty.

Open Scope string_scope.
Open Scope Z_scope.

(** ** Numbers *)

Inductive number : Set :=
  | NaN
  | NegInf
  | Fin (z : Z)
  | PosInf.

#[global] Instance number_eq_dec : EqDecision number.
Proof. solve_decision. Defined.

(** [ToBoolean] on a number: [NaN] and [0] are falsy. *)
Definition number_truthy (n : number) : bool :=
  match n with
  | NaN => false
  | Fin z => negb (z =? 0)
  | NegInf | PosInf => true
  end.

(** [a < b]; every comparison with [NaN] is false. *)
Definition number_lt (a b : number) : bool :=
  match a, b with
  | NaN, _ | _, NaN => false
  | NegInf, NegInf => false
  | NegInf, _ => true
  | Fin _, NegInf => false
  | Fin x, Fin y => x <? y
  | Fin _, PosInf => true
  | PosInf, _ => false
  end.

(** [a > b]. *)
Definition number_gt (a b : number) : bool := number_lt b a.

(** [a <= b]. *)
Definition number_le (a b : number) : bool :=
  match a, b with
  | NaN, _ | _, NaN => false
  | _, _ => negb (number_lt b a)
  end.

(** [Math.max(a, b)]. *)
Definition Math_max (a b : number) : number :=
  match a, b with
  | NaN, _ | _, NaN => NaN
  | _, _ => if number_lt a b then b else a
  end.

(** The part of the language runtime the handlers call and the repository
    does not define: [Number] applied to a string, and the exponent form
    printed for an integer of magnitude 1e21 or more (such as [1e+21]),
    which is never shorter than five characters. *)
Class JSRuntime := {
  StringToNumber : string -> number;
  ExponentForm : Z -> string;
  ExponentForm_length : forall z, (4 < String.length (ExponentForm z))%nat;
}.

(** [Number::toString]: the decimal numeral below 1e21, the exponent
    form from there on. *)
Definition NumberToString `{JSRuntime} (n : number) : string :=
  match n with
  | NaN => "NaN"
  | NegInf => "-Infinity"
  | Fin z => if Z.abs z <? 10 ^ 21 then pretty z else ExponentForm z
  | PosInf => "Infinity"
  end.

(** [a || b] on numbers. *)
Definition or_number (a b : number) : number :=
  if number_truthy a then a else b.

(** ** Strings *)

Definition string_truthy (s : string) : bool :=
  negb (String.eqb s "").

(** [a || b] where [a] and [b] are a string or [undefined]. *)
Definition or_string (a b : option string) : option string :=
  match a with
  | Some s => if string_truthy s then Some s else b
  | None => b
  end.

(** [a || s] where [s] is a string: the result is a string. *)
Definition or_string_final (a : option string) (s : string) : string :=
  match a with
  | Some t => if string_truthy t then t else s
  | None => s
  end.

(** [Array.prototype.join] on strings already converted. *)
Fixpoint join (sep : string) (xs : list string) : string :=
  match xs with
  | [] => ""
  | [x] => x
  | x :: rest => x +:+ sep +:+ join sep rest
  end.

(** ** Values *)

#[warnings="-register-all"]
Inductive value : Type :=
  | VUndefined
  | VNull
  | VBool (b : bool)
  | VNum (n : number)
  | VStr (s : string)
  | VArr (xs : list value)
  | VObj (fields : list (string * value)).

(** [ToBoolean]: objects and arrays are truthy. *)
Definition truthy (v : value) : bool :=
  match v with
  | VUndefined | VNull => false
  | VBool b => b
  | VNum n => number_truthy n
  | VStr s => string_truthy s
  | VArr _ | VObj _ => true
  end.

(** [v != null]: neither [null] nor [undefined]. *)
Definition not_nullish (v : value) : bool :=
  match v with
  | VUndefined | VNull => false
  | _ => true
  end.

(** The own property [k] of an object that [JSON.parse] made, whose
    fields are listed with each key once. *)
Fixpoint own_property (k : string) (fields : list (string * value))
    : option value :=
  match fields with
  | [] => None
  | (k', v) :: rest => if String.eqb k' k then Some v else own_property k rest
  end.

(** [String(v)]; [None] is the [TypeError] raised for an object that
    carries an own [toString] property, which coming from JSON is not a
    function.  An array joins its elements with a comma, [null] and
    [undefined] elements printing as nothing; any other object prints as
    [[object Object]]. *)
Fixpoint ToString `{JSRuntime} (v : value) : option string :=
  match v with
  | VUndefined => Some "undefined"
  | VNull => Some "null"
  | VBool true => Some "true"
  | VBool false => Some "false"
  | VNum n => Some (NumberToString n)
  | VStr s => Some s
  | VArr xs =>
      join "," <$>
        mapM (fun x => match x with
                       | VUndefined | VNull => Some ""
                       | _ => ToString x
                       end) xs
  | VObj fields =>
      match own_property "toString" fields with
      | Some _ => None
      | None => Some "[object Object]"
      end
  end.

(** [v === s] for a string literal [s]. *)
Definition strict_eq_string (v : value) (s : string) : bool :=
  match v with
  | VStr t => String.eqb t s
  | _ => false
  end.

(** [xs.includes(v)] for an array [xs] of string literals. *)
Definition includes (xs : list string) (v : value) : bool :=
  match v with
  | VStr t => existsb (String.eqb t) xs
  | _ => false
  end.

(** [Number(v)].  Arrays and objects go through their string form, and
    raise when that raises. *)
Definition ToNumber `{JSRuntime} (v : value) : option number :=
  match v with
  | VUndefined => Some NaN
  | VNull => Some (Fin 0)
  | VBool true => Some (Fin 1)
  | VBool false => Some (Fin 0)
  | VNum n => Some n
  | VStr s => Some (StringToNumber s)
  | VArr _ | VObj _ => StringToNumber <$> ToString v
  end.

(** A parsed JSON request body; [b.k] is [get b k]. *)
Definition get (b : gmap string value) (k : string) : value :=
  default VUndefined (b !! k).

(** ** Behaviour state *)

Record Behavior := mkBehavior {
  mode : value;
  errorCode : number;
  errorMessage : string;
  delayMs : number;
}.

Definition DEFAULT_BEHAVIOR : Behavior :=
  {| mode := VStr "normal";
     errorCode := Fin 500;
     errorMessage := "";
     delayMs := Fin 0 |}.

Definition set_mode (m : value) (b : Behavior) : Behavior :=
  {| mode := m; errorCode := errorCode b;
     errorMessage := errorMessage b; delayMs := delayMs b |}.

Definition set_errorCode (c : number) (b : Behavior) : Behavior :=
  {| mode := mode b; errorCode := c;
     errorMessage := errorMessage b; delayMs := delayMs b |}.

Definition set_errorMessage (s : string) (b : Behavior) : Behavior :=
  {| mode := mode b; errorCode := errorCode b;
     errorMessage := s; delayMs := delayMs b |}.

Definition set_delayMs (d : number) (b : Behavior) : Behavior :=
  {| mode := mode b; errorCode := errorCode b;
     errorMessage := errorMessage b; delayMs := d |}.

(** A number as [JSON.stringify] writes it: [NaN] and the infinities
    become [null]. *)
Definition json_number (n : number) : value :=
  match n with
  | Fin z => VNum (Fin z)
  | NaN | NegInf | PosInf => VNull
  end.

(** What [res.json(behavior)] serialises. *)
Definition behavior_json (b : Behavior) : value :=
  VObj [("mode", mode b);
        ("errorCode", json_number (errorCode b));
        ("errorMessage", VStr (errorMessage b));
        ("delayMs", json_number (delayMs b))].

(** ** Requests, responses and the request log *)

Record File := mkFile {
  originalname : option string;
  name : option string;
  size : option number;
}.

Record Files := mkFiles { pdf : option File }.

Record Request := mkRequest {
  method : string;
  path : string;
  file : option File;
  files : option Files;
  authorization : option string;
}.

(** What a handler hands to [res.status(status).json(body)]. *)
Record Response := mkResponse {
  status : number;
  body : value;
}.

(** How a handler ends: it sent a response, it returned without sending
    one, or it raised an exception before sending one. *)
Inductive Answer :=
  | Sent (r : Response)
  | Silent
  | Raised.

Record LogEntry := mkLogEntry {
  id : string;
  time : string;
  entry_method : string;
  entry_path : string;
  fileName : option string;
  fileSize : option number;
  hasAuth : bool;
  responseStatus : number;
  note : option string;
  chaosMode : value;
}.

(** What the clock and the random generator give when an entry is made:
    the [id] string and the ISO time stamp. *)
Record Env := mkEnv {
  fresh_id : string;
  iso_time : string;
}.

(** The module-level variables [behavior] and [receivedLog].  [behavior]
    always refers to an object of its own: both assignments to it are
    spread copies of [DEFAULT_BEHAVIOR], whose fields are primitives. *)
Record Globals := mkGlobals {
  behavior : Behavior;
  receivedLog : list LogEntry;
}.

Definition MAX_LOG : nat := 200.

(** [Array.prototype.pop]: drop the last element. *)
Definition pop {A} (l : list A) : list A := removelast l.

(** [req.file || req.files?.pdf]. *)
Definition request_file (req : Request) : option File :=
  match file req with
  | Some f => Some f
  | None => match files req with
            | Some fs => pdf fs
            | None => None
            end
  end.

(** [f?.originalname || f?.name || null]. *)
Definition file_name (f : option File) : option string :=
  or_string (or_string (f ≫= originalname) (f ≫= name)) None.

(** [f?.size ?? null]. *)
Definition file_size (f : option File) : option number := f ≫= size.

(** [!!req.headers.authorization]. *)
Definition has_auth (req : Request) : bool :=
  match authorization req with
  | Some s => string_truthy s
  | None => false
  end.

(** The object literal that [logReceived] builds; [md] is the value of
    [behavior.mode] at that moment and an omitted [note] is [None]. *)
Definition log_entry (req : Request) (responseStatus : number)
    (note : option string) (env : Env) (md : value) : LogEntry :=
  let file := request_file req in
  {| id := fresh_id env;
     time := iso_time env;
     entry_method := method req;
     entry_path := path req;
     fileName := file_name file;
     fileSize := file_size file;
     hasAuth := has_auth req;
     responseStatus := responseStatus;
     note := or_string note None;
     chaosMode := md |}.

(** [logReceived(req, responseStatus, note)]: [unshift] the entry, then
    [pop] once when the length exceeds [MAX_LOG]. *)
Definition logReceived (req : Request) (responseStatus : number)
    (note : option string) (env : Env) (g : Globals) : Globals :=
  let log :=
    log_entry req responseStatus note env (mode (behavior g))
      :: receivedLog g in
  {| behavior := behavior g;
     receivedLog := if (MAX_LOG <? length log)%nat then pop log else log |}.

Definition ERROR_MESSAGES : gmap string string :=
  list_to_map
    [("400", "Bad Request");
     ("401", "Unauthorized");
     ("403", "Forbidden");
     ("404", "Not Found");
     ("408", "Request Timeout");
     ("429", "Too Many Requests");
     ("500", "Internal Server Error");
     ("502", "Bad Gateway");
     ("503", "Service Unavailable");
     ("504", "Gateway Timeout")].

(** [ERROR_MESSAGES[code]]: the number is used as a property key. *)
Definition error_message_of `{JSRuntime} (code : number) : option string :=
  ERROR_MESSAGES !! NumberToString code.

(** ** The control surface of the behaviour store and of the log *)

Definition MODES : list string := ["normal"; "error"; "timeout"].

Definition ok_json (v : value) : Response :=
  {| status := Fin 200; body := v |}.

Definition INVALID_MODE : Response :=
  {| status := Fin 400;
     body := VObj [("error", VStr "mode must be normal, error, or timeout")] |}.

(** [app.get('/api/behavior')]. *)
Definition getBehavior (g : Globals) : Response :=
  ok_json (behavior_json (behavior g)).

(** [app.post('/api/behavior')], where [b] is [req.body], the object that
    [express.json()] parsed (empty when the request carries no JSON).
    The four assignments are made in the order of the source; when a
    conversion raises, the assignments made before it stay and the
    handler ends without a response of its own. *)
Definition postBehavior `{JSRuntime} (b : gmap string value) (g : Globals)
    : Globals * Answer :=
  if truthy (get b "mode") && negb (includes MODES (get b "mode")) then
    (g, Sent INVALID_MODE)
  else
    let store bh := {| behavior := bh; receivedLog := receivedLog g |} in
    let bh0 := if truthy (get b "mode")
               then set_mode (get b "mode") (behavior g)
               else behavior g in
    match (if not_nullish (get b "errorCode")
           then (fun n => set_errorCode (or_number n (Fin 500)) bh0)
                  <$> ToNumber (get b "errorCode")
           else Some bh0) with
    | None => (store bh0, Raised)
    | Some bh1 =>
        match (if not_nullish (get b "errorMessage")
               then (fun m => set_errorMessage m bh1)
                      <$> ToString (get b "errorMessage")
               else Some bh1) with
        | None => (store bh1, Raised)
        | Some bh2 =>
            match (if not_nullish (get b "delayMs")
                   then (fun n => set_delayMs
                                    (Math_max (Fin 0) (or_number n (Fin 0)))
                                    bh2)
                          <$> ToNumber (get b "delayMs")
                   else Some bh2) with
            | None => (store bh2, Raised)
            | Some bh3 => (store bh3, Sent (ok_json (behavior_json bh3)))
            end
        end
    end.

(** [app.post('/api/behavior/reset')]. *)
Definition postBehaviorReset (g : Globals) : Globals * Response :=
  ({| behavior := DEFAULT_BEHAVIOR; receivedLog := receivedLog g |},
   ok_json (behavior_json DEFAULT_BEHAVIOR)).

Definition option_json {A} (f : A -> value) (o : option A) : value :=
  match o with
  | Some a => f a
  | None => VNull
  end.

Definition entry_json (e : LogEntry) : value :=
  VObj [("id", VStr (id e));
        ("time", VStr (time e));
        ("method", VStr (entry_method e));
        ("path", VStr (entry_path e));
        ("fileName", option_json VStr (fileName e));
        ("fileSize", option_json json_number (fileSize e));
        ("hasAuth", VBool (hasAuth e));
        ("responseStatus", json_number (responseStatus e));
        ("note", option_json VStr (note e));
        ("chaosMode", chaosMode e)].

(** [app.get('/api/inbox')]. *)
Definition getInbox (g : Globals) : Response :=
  ok_json (VArr (map entry_json (receivedLog g))).

(** [app.post('/api/inbox/clear')]. *)
Definition postInboxClear (g : Globals) : Globals * Response :=
  ({| behavior := behavior g; receivedLog := [] |},
   ok_json (VObj [("ok", VBool true)])).

(** ** The upload handler *)

(** The message of the error branch:
    [behavior.errorMessage || ERROR_MESSAGES[code] || `Error ${code}`]. *)
Definition error_msg `{JSRuntime} (bh : Behavior) (code : number) : string :=
  or_string_final
    (or_string (Some (errorMessage bh)) (error_message_of code))
    ("Error " +:+ NumberToString code).

(** The status codes a response can be sent with; with any other code
    [res.status(code).json(...)] raises. *)
Definition valid_status (code : number) : bool :=
  match code with
  | Fin z => (100 <=? z) && (z <=? 999)
  | _ => false
  end.

(** [res.status(code).json(body)]. *)
Definition send (code : number) (body : value) : Answer :=
  if valid_status code then Sent {| status := code; body := body |}
  else Raised.

(** [handle] from the statement after the [await] to its end: the new
    state and how the call ended. *)
Definition handle_resume `{JSRuntime} (req : Request) (env : Env)
    (g : Globals) : Globals * Answer :=
  if strict_eq_string (mode (behavior g)) "timeout" then
    (logReceived req (Fin 0) (Some "timeout (no response sent)") env g,
     Silent)
  else if strict_eq_string (mode (behavior g)) "error" then
    let code := or_number (errorCode (behavior g)) (Fin 500) in
    let msg := error_msg (behavior g) code in
    (logReceived req code (Some ("chaos: " +:+ msg)) env g,
     send code (VObj [("error", VStr msg)]))
  else
    (logReceived req (Fin 200) None env g,
     send (Fin 200)
       (VObj [("ok", VBool true);
              ("message", VStr "PDF received");
              ("filename", option_json VStr (file_name (file req)))])).

(** How far one call of [handle] gets before it yields to the event loop. *)
Inductive Outcome :=
  | Finished (g : Globals) (res : Answer)
  | Awaiting (ms : number).

(** [handle(req, res)] up to its first suspension. *)
Definition handle `{JSRuntime} (req : Request) (env : Env) (g : Globals)
    : Outcome :=
  if number_gt (delayMs (behavior g)) (Fin 0) then
    Awaiting (delayMs (behavior g))
  else
    let '(g', res) := handle_resume req env g in Finished g' res.

(** ** The event loop *)

(** The process: its globals, the number of upload requests accepted so
    far (the next request is given this number), and the calls of [handle]
    suspended in [await delay(ms)], each with its request and [ms]. *)
Record Server := mkServer {
  globals : Globals;
  next_request : nat;
  pending : gmap nat (Request * number);
}.

Inductive Event :=
  | Upload (req : Request) (env : Env)
  | TimerFired (rid : nat) (env : Env)
  | GetBehavior
  | PostBehavior (b : gmap string value)
  | PostBehaviorReset
  | GetInbox
  | PostInboxClear.

(** What a turn of the loop lets out: the response of a handler, or the
    exception it raised instead of responding. *)
Inductive Reply :=
  | UploadReply (rid : nat) (r : Response)
  | UploadRaised (rid : nat)
  | ControlReply (r : Response)
  | ControlRaised.

Definition upload_reply (rid : nat) (a : Answer) : option Reply :=
  match a with
  | Sent r => Some (UploadReply rid r)
  | Silent => None
  | Raised => Some (UploadRaised rid)
  end.

Definition control_reply (a : Answer) : option Reply :=
  match a with
  | Sent r => Some (ControlReply r)
  | Silent => None
  | Raised => Some ControlRaised
  end.

Definition with_globals (g : Globals) (s : Server) : Server :=
  {| globals := g; next_request := next_request s; pending := pending s |}.

(** One turn of the event loop. *)
Definition step `{JSRuntime} (s : Server) (ev : Event) : Server * option Reply :=
  match ev with
  | Upload req env =>
      let rid := next_request s in
      match handle req env (globals s) with
      | Awaiting ms =>
          ({| globals := globals s; next_request := S rid;
              pending := <[rid := (req, ms)]> (pending s) |}, None)
      | Finished g res =>
          ({| globals := g; next_request := S rid; pending := pending s |},
           upload_reply rid res)
      end
  | TimerFired rid env =>
      match pending s !! rid with
      | Some (req, _) =>
          let '(g, res) := handle_resume req env (globals s) in
          ({| globals := g; next_request := next_request s;
              pending := delete rid (pending s) |},
           upload_reply rid res)
      | None => (s, None)
      end
  | GetBehavior => (s, Some (ControlReply (getBehavior (globals s))))
  | PostBehavior b =>
      let '(g, a) := postBehavior b (globals s) in
      (with_globals g s, control_reply a)
  | PostBehaviorReset =>
      let '(g, r) := postBehaviorReset (globals s) in
      (with_globals g s, Some (ControlReply r))
  | GetInbox => (s, Some (ControlReply (getInbox (globals s))))
  | PostInboxClear =>
      let '(g, r) := postInboxClear (globals s) in
      (with_globals g s, Some (ControlReply r))
  end.

(** A run: the events in order, with the replies they produced. *)
Fixpoint run `{JSRuntime} (s : Server) (evs : list Event)
    : Server * list (option Reply) :=
  match evs with
  | [] => (s, [])
  | ev :: rest =>
      let '(s1, r) := step s ev in
      let '(s2, rs) := run s1 rest in
      (s2, r :: rs)
  end.

(** The process at start: [behavior = { ...DEFAULT_BEHAVIOR }] and an
    empty [receivedLog]. *)
Definition init_globals : Globals :=
  {| behavior := DEFAULT_BEHAVIOR; receivedLog := [] |}.

Definition init_server : Server :=
  {| globals := init_globals; next_request := 0%nat; pending := ∅ |}.

(** The states the process can be in. *)
Inductive reachable `{JSRuntime} : Server -> Prop :=
  | reachable_init : reachable init_server
  | reachable_step s ev :
      reachable s -> reachable (fst (step s ev)).

(** ** A runtime to run the model on concrete inputs

    [Number] on the signed decimal integer numerals, the empty string and
    the two infinities, where it agrees with the language; any other
    string is sent to [NaN].  Every number of magnitude 1e21 or more is
    printed as [1e+21], which is right for that number only. *)

Definition digit_value (c : ascii) : option Z :=
  let n := Z.of_nat (nat_of_ascii c) in
  if (48 <=? n) && (n <=? 57) then Some (n - 48) else None.

Fixpoint digits_value (s : string) (acc : Z) : option Z :=
  match s with
  | EmptyString => Some acc
  | String c rest =>
      match digit_value c with
      | Some d => digits_value rest (10 * acc + d)
      | None => None
      end
  end.

Definition decimal_StringToNumber (s : string) : number :=
  match s with
  | EmptyString => Fin 0
  | String c rest =>
      if String.eqb s "Infinity" then PosInf
      else if String.eqb s "-Infinity" then NegInf
      else if Ascii.eqb c "-"%char then
        match rest, digits_value rest 0 with
        | String _ _, Some z => Fin (- z)
        | _, _ => NaN
        end
      else
        match digits_value s 0 with
        | Some z => Fin z
        | None => NaN
        end
  end.

Definition decimal_runtime : JSRuntime :=
  {| StringToNumber := decimal_StringToNumber;
     ExponentForm := fun _ => "1e+21";
     ExponentForm_length := fun _ => le_n 5 |}.

(** ** The specification's vocabulary *)

(** The three enumerated modes. *)
Definition valid_mode (v : value) : Prop :=
  v = VStr "normal" \/ v = VStr "error" \/ v = VStr "timeout".

(** The code-to-phrase table of the specification, by status code. *)
Definition reason_phrase (code : number) : option string :=
  match code with
  | Fin z =>
      if z =? 400 then Some "Bad Request"
      else if z =? 401 then Some "Unauthorized"
      else if z =? 403 then Some "Forbidden"
      else if z =? 404 then Some "Not Found"
      else if z =? 408 then Some "Request Timeout"
      else if z =? 429 then Some "Too Many Requests"
      else if z =? 500 then Some "Internal Server Error"
      else if z =? 502 then Some "Bad Gateway"
      else if z =? 503 then Some "Service Unavailable"
      else if z =? 504 then Some "Gateway Timeout"
      else None
  | _ => None
  end.

(** The effective message in the specification's words: the explicit
    message if one is set, else the phrase of the table, else
    [Error <code>]. *)
Definition effective_message `{JSRuntime} (explicit : string)
    (code : number) : string :=
  if decide (explicit = "") then
    match reason_phrase code with
    | Some phrase => phrase
    | None => "Error " +:+ NumberToString code
    end
  else explicit.

(** One call of the recorder, as the specification's [record] takes it. *)
Record Call := mkCall {
  call_req : Request;
  call_status : number;
  call_note : option string;
  call_env : Env;
}.

Definition record (c : Call) (g : Globals) : Globals :=
  logReceived (call_req c) (call_status c) (call_note c) (call_env c) g.

(** The calls of a list in order, the first of the list first. *)
Definition record_all (cs : list Call) (g : Globals) : Globals :=
  foldl (fun acc c => record c acc) g cs.

Definition call_entry (md : value) (c : Call) : LogEntry :=
  log_entry (call_req c) (call_status c) (call_note c) (call_env c) md.


(** Every suspended call belongs to a request already numbered. *)
Definition pending_numbered (s : Server) : Prop :=
  forall rid, is_Some (pending s !! rid) -> (rid < next_request s)%nat.

(** What every state of the process satisfies. *)
Definition behavior_ok (bh : Behavior) : Prop :=
  valid_mode (mode bh)
  /\ number_le (Fin 0) (delayMs bh) = true
  /\ number_truthy (errorCode bh) = true.

Definition globals_ok (g : Globals) : Prop :=
  behavior_ok (behavior g) /\ (length (receivedLog g) <= MAX_LOG)%nat.

Definition server_ok (s : Server) : Prop :=
  globals_ok (globals s) /\ pending_numbered s.


(** The event is not the end of the delay of request [rid]. *)
Definition other_than_timer (rid : nat) (ev : Event) : Prop :=
  forall env, ev <> TimerFired rid env.

(** ** Sample inputs *)

Definition sample_file : File :=
  {| originalname := Some "invoice.pdf"; name := None;
     size := Some (Fin 1024) |}.

Definition sample_request : Request :=
  {| method := "POST"; path := "/upload"; file := Some sample_file;
     files := None; authorization := Some "Basic dG9rZW46" |}.

Definition bare_request : Request :=
  {| method := "POST"; path := "/upload"; file := None;
     files := None; authorization := None |}.

Definition sample_env (n : nat) : Env :=
  {| fresh_id := "req" +:+ pretty n; iso_time := "t" +:+ pretty n |}.

Definition sample_call (n : nat) : Call :=
  {| call_req := sample_request; call_status := Fin 200;
     call_note := None; call_env := sample_env n |}.

(** A state with mode [error], a chosen code and a chosen message. *)
Definition error_globals (code : number) (msg : string) : Globals :=
  {| behavior := {| mode := VStr "error"; errorCode := code;
                    errorMessage := msg; delayMs := Fin 0 |};
     receivedLog := [] |}.

Definition body1 (k : string) (v : value) : gmap string value :=
  {[ k := v ]}.

Definition body2 (k1 : string) (v1 : value) (k2 : string) (v2 : value)
    : gmap string value :=
  <[k1 := v1]> {[ k2 := v2 ]}.

(** The default process after [delayMs] is set to 1000. *)
Definition delayed_server : Server :=
  fst (@step decimal_runtime init_server
         (PostBehavior (body1 "delayMs" (VNum (Fin 1000))))).

(** ... then an upload arrives and waits in its delay ... *)
Definition waiting_server : Server :=
  fst (@step decimal_runtime delayed_server
         (Upload sample_request (sample_env 0))).

(** ... and the mode is switched to [error] during the wait. *)
Definition switched_server : Server :=
  fst (@step decimal_runtime waiting_server
         (PostBehavior (body1 "mode" (VStr "error")))).

(** The default process after a set of mode [error] with code 503. *)
Definition failing_server : Server :=
  fst (@step decimal_runtime init_server
         (PostBehavior
            (body2 "mode" (VStr "error") "errorCode" (VNum (Fin 503))))).

(** The default process after a set of mode [timeout]. *)
Definition hanging_server : Server :=
  fst (@step decimal_runtime init_server
         (PostBehavior (body1 "mode" (VStr "timeout")))).


(** The default store after errorCode is set to 503. *)
Definition globals_503 : Globals :=
  fst (@postBehavior decimal_runtime
         (body1 "errorCode" (VNum (Fin 503))) init_globals).

(** ** The helpers of the control panel *)

(** [s.replace(/c/g, by)] for a pattern that is the one character [c]. *)
Fixpoint replace_all (c : ascii) (by_ : string) (s : string) : string :=
  match s with
  | EmptyString => EmptyString
  | String a rest =>
      if Ascii.eqb a c then by_ +:+ replace_all c by_ rest
      else String a (replace_all c by_ rest)
  end.

(** The double quote character. *)
Definition QUOT : ascii := "034"%char.

(** [escapeHtml(s)]: [String(s)], then the four replacements in the order
    of the source; [None] when [String(s)] raises. *)
Definition escapeHtml `{JSRuntime} (s : value) : option string :=
  (fun str =>
     replace_all QUOT "&quot;"
       (replace_all ">"%char "&gt;"
          (replace_all "<"%char "&lt;"
             (replace_all "&"%char "&amp;" str)))) <$> ToString s.

(** [(n / d).toFixed(1)] for a divisor [d] that is a power of two, so that
    the quotient of an integer is exact.  Below 1e21 it is the nearest
    tenth, the larger one on a tie, printed with one decimal; from 1e21 on
    it is the quotient printed as [String] prints it; the sign comes
    first; [NaN] and the infinities print as themselves. *)
Definition div_toFixed1 `{JSRuntime} (n : number) (d : Z) : string :=
  match n with
  | Fin z =>
      (if z <? 0 then "-" else "") +:+
      (if Z.abs z / d <? 10 ^ 21 then
         let t := (20 * Z.abs z + d) / (2 * d) in
         pretty (t / 10) +:+ "." +:+ pretty (t mod 10)
       else NumberToString (Fin (Z.abs z / d)))
  | _ => NumberToString n
  end.

(** [formatBytes(n)]; [null] and [undefined] are [None]. *)
Definition formatBytes `{JSRuntime} (n : option number) : string :=
  match n with
  | None => "–"
  | Some n =>
      if number_lt n (Fin 1024) then NumberToString n +:+ " B"
      else if number_lt n (Fin (1024 * 1024)) then
        div_toFixed1 n 1024 +:+ " KB"
      else div_toFixed1 n (1024 * 1024) +:+ " MB"
  end.

(** [a >= b]. *)
Definition number_ge (a b : number) : bool := number_le b a.

(** [a === b] on numbers: [NaN] equals nothing. *)
Definition strict_eq_number (a b : number) : bool :=
  match a, b with
  | NaN, _ | _, NaN => false
  | _, _ => bool_decide (a = b)
  end.

(** The [statusClass] of a row of the panel. *)
Definition statusClass (e : LogEntry) : string :=
  if strict_eq_number (responseStatus e) (Fin 0) then "timeout"
  else if number_ge (responseStatus e) (Fin 500) then "5xx"
  else if number_ge (responseStatus e) (Fin 400) then "4xx"
  else "2xx".

(** ** The upload route of the configuration *)

(** The string methods of the language that [loadConfig] calls and the
    repository does not define. *)
Class StringRuntime := {
  trim : string -> string;
  toUpperCase : string -> string;
}.

Record UploadRoute := mkUploadRoute {
  route_method : string;
  route_paths : list string;
}.

Definition DEFAULT_UPLOAD : value :=
  VObj [("method", VStr "POST"); ("path", VStr "/upload")].

(** [o.k] for a value [o] that [JSON.parse] made and a key [k] that no
    prototype defines: the own property of an object, [undefined] on
    anything else. *)
Definition property (o : value) (k : string) : value :=
  match o with
  | VObj fields => default VUndefined (own_property k fields)
  | _ => VUndefined
  end.

(** [v.toString()]; [None] is the [TypeError] raised when an object
    carries an own [toString] property (which, coming from JSON, is not a
    function) or when [v] is [null] or [undefined]. *)
Fixpoint toString_method `{JSRuntime} (v : value) : option string :=
  match v with
  | VUndefined | VNull => None
  | VBool _ | VNum _ | VStr _ => ToString v
  | VArr xs =>
      join "," <$>
        mapM (fun x => match x with
                       | VUndefined | VNull => Some ""
                       | _ => toString_method x
                       end) xs
  | VObj fields =>
      match own_property "toString" fields with
      | Some _ => None
      | None => Some "[object Object]"
      end
  end.

(** [s.startsWith('/')]. *)
Definition starts_with_slash (s : string) : bool :=
  match s with
  | String c _ => Ascii.eqb c "/"%char
  | EmptyString => false
  end.

(** The callback mapped over an array of paths; [None] is [null]. *)
Definition normalize_entry `{StringRuntime} (p : value) : option string :=
  match p with
  | VStr s =>
      if string_truthy (trim s) then
        Some (if starts_with_slash (trim s) then trim s
              else "/" +:+ trim s)
      else None
  | _ => None
  end.

(** [.filter(Boolean)] on strings and [null]. *)
Definition filter_Boolean (xs : list (option string)) : list string :=
  omap (fun x => match x with
                 | Some s => if string_truthy s then Some s else None
                 | None => None
                 end) xs.

(** The one path made of a [path] that is not an array; the outer [None]
    is an exception. *)
Definition scalar_path `{JSRuntime} `{StringRuntime} (p : value)
    : option string :=
  starts ← (if truthy p
            then (fun s => starts_with_slash (trim s)) <$> toString_method p
            else Some false);
  if starts : bool then trim <$> toString_method p
  else
    match p with
    | VUndefined | VNull => Some ("/" +:+ "upload")
    | _ =>
        s ← toString_method p;
        Some ("/" +:+ (if string_truthy (trim s) then trim s else "upload"))
    end.

(** The body of the [try] of [loadConfig], on the value [cfg] that
    [JSON.parse] returned; [None] is an exception. *)
Definition loadConfig_try `{JSRuntime} `{StringRuntime} (cfg : value)
    : option UploadRoute :=
  let upload := match property cfg "upload" with
                | VUndefined | VNull => DEFAULT_UPLOAD
                | u => u
                end in
  method ← toUpperCase <$>
             toString_method (if truthy (property upload "method")
                              then property upload "method"
                              else VStr "POST");
  let pathOrPaths := property upload "path" in
  paths ← match pathOrPaths with
          | VArr ps => Some (filter_Boolean (map normalize_entry ps))
          | _ => (fun p => [p]) <$> scalar_path pathOrPaths
          end;
  Some {| route_method := method;
          route_paths := match paths with
                         | [] => ["/upload"]
                         | _ => paths
                         end |}.

(** [loadConfig()]; [file] is what reading and parsing [config.json]
    gave, [None] when either raised. *)
Definition loadConfig `{JSRuntime} `{StringRuntime} (file : option value)
    : UploadRoute :=
  match file ≫= loadConfig_try with
  | Some route => route
  | None => {| route_method := "POST"; route_paths := ["/upload"] |}
  end.

(** ** Further vocabulary *)

(** The escape of one character. *)
Definition escape_char (c : ascii) : string :=
  if Ascii.eqb c "&"%char then "&amp;"
  else if Ascii.eqb c "<"%char then "&lt;"
  else if Ascii.eqb c ">"%char then "&gt;"
  else if Ascii.eqb c QUOT then "&quot;"
  else String c EmptyString.

(** The escape of a string in one pass over its characters. *)
Fixpoint escape_chars (s : string) : string :=
  match s with
  | EmptyString => EmptyString
  | String c rest => escape_char c +:+ escape_chars rest
  end.

(** The character [c] occurs in [s]. *)
Fixpoint occurs (c : ascii) (s : string) : bool :=
  match s with
  | EmptyString => false
  | String a rest => Ascii.eqb a c || occurs c rest
  end.

(** No character that opens or closes a tag or an attribute value. *)
Definition markup_free (s : string) : Prop :=
  occurs "<"%char s = false /\ occurs ">"%char s = false
  /\ occurs QUOT s = false.

(** How a log entry was made: by the timeout branch, by the error branch
    or by the normal branch of [handle]. *)
Definition entry_ok (e : LogEntry) : Prop :=
  (chaosMode e = VStr "timeout" /\ responseStatus e = Fin 0
   /\ note e = Some "timeout (no response sent)")
  \/ (chaosMode e = VStr "error" /\ number_truthy (responseStatus e) = true
      /\ exists msg, note e = Some ("chaos: " +:+ msg))
  \/ (chaosMode e = VStr "normal" /\ responseStatus e = Fin 200
      /\ note e = None).

(** ** Further sample inputs *)

(** The process after an upload was left unanswered in mode timeout. *)
Definition hung_server : Server :=
  fst (@step decimal_runtime hanging_server
         (Upload sample_request (sample_env 0))).

Definition hung_entry : LogEntry :=
  log_entry sample_request (Fin 0) (Some "timeout (no response sent)")
    (sample_env 0) (VStr "timeout").

(** The process with a request waiting and [delayMs] set back to 0. *)
Definition released_server : Server :=
  fst (@step decimal_runtime waiting_server
         (PostBehavior (body1 "delayMs" (VNum (Fin 0))))).

(** A request whose file is under [req.files.pdf] only. *)
Definition legacy_request : Request :=
  {| method := "POST"; path := "/upload"; file := None;
     files := Some {| pdf := Some sample_file |}; authorization := None |}.

(** * Proofs *)

Section Runtime.
Context `{JSRuntime}.

(** ** Numbers and strings *)

Lemma number_truthy_or (a b : number) :
  number_truthy b = true -> number_truthy (or_number a b) = true.
Proof.
  intros Hb. unfold or_number.
  destruct (number_truthy a) eqn:Ha; [exact Ha | exact Hb].
Qed.

Lemma or_number_falsy (a b : number) :
  a = NaN \/ a = Fin 0 -> or_number a b = b.
Proof. intros [-> | ->]; reflexivity. Qed.

Lemma or_number_truthy (a b : number) :
  a <> NaN -> a <> Fin 0 -> or_number a b = a.
Proof.
  intros Hnan Hzero. unfold or_number.
  destruct a as [| | z |]; try reflexivity; [congruence |].
  simpl. destruct (Z.eqb_spec z 0) as [-> | _]; [congruence | reflexivity].
Qed.

Lemma or_number_zero_not_NaN (a : number) : or_number a (Fin 0) <> NaN.
Proof. destruct a as [| | z |]; unfold or_number; simpl; try discriminate.
  destruct (z =? 0); discriminate.
Qed.

Lemma Math_max_zero_nonneg (n : number) :
  n <> NaN -> number_le (Fin 0) (Math_max (Fin 0) n) = true.
Proof.
  intros Hn. destruct n as [| | z |]; try reflexivity; [congruence |].
  simpl. destruct (Z.ltb_spec 0 z); simpl.
  - destruct (Z.ltb_spec z 0); [lia | reflexivity].
  - reflexivity.
Qed.

Lemma Math_max_zero_or (n : number) :
  Math_max (Fin 0) (or_number n (Fin 0)) =
  if decide (n = NaN) then Fin 0 else Math_max (Fin 0) n.
Proof.
  destruct n as [| | z |]; try reflexivity.
  unfold or_number. simpl.
  destruct (Z.eqb_spec z 0) as [-> | Hz]; simpl; reflexivity.
Qed.

Lemma string_truthy_true (s : string) : string_truthy s = true <-> s <> "".
Proof.
  unfold string_truthy. destruct (String.eqb_spec s ""); simpl; split;
    congruence.
Qed.

Lemma includes_MODES (v : value) :
  includes MODES v = true <-> valid_mode v.
Proof.
  unfold valid_mode. split.
  - destruct v as [| | b | n | t | xs | fs]; simpl; try discriminate.
    destruct (String.eqb_spec t "normal") as [-> | _]; [tauto |].
    destruct (String.eqb_spec t "error") as [-> | _]; [tauto |].
    destruct (String.eqb_spec t "timeout") as [-> | _]; [tauto |].
    discriminate.
  - intros [-> | [-> | ->]]; reflexivity.
Qed.

Lemma valid_mode_truthy (v : value) : valid_mode v -> truthy v = true.
Proof. intros [-> | [-> | ->]]; reflexivity. Qed.

(** ** The code-to-phrase table *)

Lemma pretty_Z_is (z k : Z) : pretty z = pretty k -> z = k.
Proof. apply (inj pretty). Qed.

(** Reading [ERROR_MESSAGES] at the printed code is reading the table of
    the specification at the code. *)
Lemma ten_pow_21 : 10 ^ 21 = 1000000000000000000000.
Proof. reflexivity. Qed.

(** Reading [ERROR_MESSAGES] at the printed code is reading the table of
    the specification at the code. *)
Lemma error_message_of_phrase (code : number) :
  error_message_of code = reason_phrase code.
Proof.
  unfold error_message_of.
  destruct code as [| | z |]; try reflexivity.
  unfold reason_phrase, ERROR_MESSAGES, NumberToString. simpl list_to_map.
  destruct (Z.ltb_spec (Z.abs z) (10 ^ 21)) as [_ | Hbig].
  - repeat match goal with
    | |- context [ z =? ?k ] =>
        destruct (Z.eqb_spec z k) as [-> | ?]; [reflexivity |];
        rewrite lookup_insert_ne
          by (intros Heq; apply (pretty_Z_is k z) in Heq; congruence)
    end.
    apply lookup_empty.
  - rewrite ten_pow_21 in Hbig.
    pose proof (ExponentForm_length z) as Hlen.
    repeat match goal with
    | |- context [ z =? ?k ] =>
        destruct (Z.eqb_spec z k) as [-> | ?]; [lia |];
        rewrite lookup_insert_ne
          by (intros Heq; rewrite <- Heq in Hlen; simpl in Hlen; lia)
    end.
    apply lookup_empty.
Qed.

Lemma reason_phrase_truthy (code : number) (p : string) :
  reason_phrase code = Some p -> string_truthy p = true.
Proof.
  destruct code as [| | z |]; simpl; try discriminate.
  repeat match goal with
  | |- context [ z =? ?k ] => destruct (z =? k)
  end; intros [= <-]; reflexivity.
Qed.

(** The [||] chain of [handle] computes the effective message. *)
Lemma error_msg_effective (bh : Behavior) (code : number) :
  error_msg bh code = effective_message (errorMessage bh) code.
Proof.
  unfold error_msg, effective_message, or_string, or_string_final.
  rewrite error_message_of_phrase.
  destruct (decide (errorMessage bh = "")) as [-> | Hne].
  - simpl. destruct (reason_phrase code) as [p |] eqn:Hp; [| reflexivity].
    rewrite (reason_phrase_truthy _ _ Hp). reflexivity.
  - apply string_truthy_true in Hne. rewrite Hne, Hne. reflexivity.
Qed.

(** ** The request recorder *)

Lemma logReceived_behavior req st nt env g :
  behavior (logReceived req st nt env g) = behavior g.
Proof. reflexivity. Qed.

Lemma pop_full {A} (e : A) (l : list A) :
  length l = MAX_LOG -> pop (e :: l) = take MAX_LOG (e :: l).
Proof.
  intros Hlen. unfold pop. rewrite removelast_firstn_len.
  simpl length. rewrite Hlen. reflexivity.
Qed.

(** Below the cap, recording keeps the newest [MAX_LOG] entries. *)
Lemma logReceived_log req st nt env g :
  (length (receivedLog g) <= MAX_LOG)%nat ->
  receivedLog (logReceived req st nt env g) =
  take MAX_LOG (log_entry req st nt env (mode (behavior g)) :: receivedLog g).
Proof.
  intros Hlen. unfold logReceived. cbn [receivedLog].
  set (e := log_entry req st nt env (mode (behavior g))).
  destruct (Nat.ltb_spec MAX_LOG (length (e :: receivedLog g))) as [Hgt | Hle].
  - apply pop_full. simpl in Hgt. lia.
  - symmetry. apply take_ge. exact Hle.
Qed.

Lemma logReceived_length req st nt env g :
  (length (receivedLog g) <= MAX_LOG)%nat ->
  (length (receivedLog (logReceived req st nt env g)) <= MAX_LOG)%nat.
Proof.
  intros Hlen. rewrite logReceived_log by exact Hlen.
  rewrite length_take. lia.
Qed.

(** The entry just recorded is the first of the log. *)
Lemma logReceived_head req st nt env g :
  head (receivedLog (logReceived req st nt env g)) =
  Some (log_entry req st nt env (mode (behavior g))).
Proof.
  unfold logReceived. cbn [receivedLog].
  destruct (receivedLog g) as [| e l]; [reflexivity |].
  destruct (_ <? _)%nat; reflexivity.
Qed.

Lemma take_app_take {A} (n : nat) (xs ys : list A) :
  take n (xs ++ take n ys) = take n (xs ++ ys).
Proof.
  rewrite !take_app, take_take. f_equal. f_equal. lia.
Qed.

Lemma record_all_behavior cs g :
  behavior (record_all cs g) = behavior g.
Proof.
  revert g. induction cs as [| c cs IH]; intros g; [reflexivity |].
  simpl. rewrite IH. reflexivity.
Qed.

(** Recording a list of calls leaves the newest [MAX_LOG] of them and of
    the entries already there, the last call first. *)
Lemma record_all_log cs g :
  (length (receivedLog g) <= MAX_LOG)%nat ->
  receivedLog (record_all cs g) =
  take MAX_LOG
    (rev (map (call_entry (mode (behavior g))) cs) ++ receivedLog g).
Proof.
  revert g. induction cs as [| c cs IH]; intros g Hlen.
  - simpl. symmetry. apply take_ge. exact Hlen.
  - simpl. rewrite IH by (apply logReceived_length; exact Hlen).
    unfold record at 2. rewrite logReceived_log by exact Hlen.
    unfold record at 1. rewrite logReceived_behavior.
    rewrite take_app_take, <- app_assoc. reflexivity.
Qed.


(** ** The behaviour store *)

Lemma postBehavior_rejected b g :
  truthy (get b "mode") = true ->
  includes MODES (get b "mode") = false ->
  postBehavior b g = (g, Sent INVALID_MODE).
Proof.
  intros Ht Hi. unfold postBehavior. rewrite Ht, Hi. reflexivity.
Qed.

(** An accepted call in which no conversion raises assigns each provided
    field and answers with the new behaviour. *)
Lemma postBehavior_accepted b g nc sm nd :
  truthy (get b "mode") && negb (includes MODES (get b "mode")) = false ->
  ToNumber (get b "errorCode") = Some nc ->
  ToString (get b "errorMessage") = Some sm ->
  ToNumber (get b "delayMs") = Some nd ->
  let bh :=
    {| mode := if truthy (get b "mode") then get b "mode"
               else mode (behavior g);
       errorCode := if not_nullish (get b "errorCode")
                    then or_number nc (Fin 500)
                    else errorCode (behavior g);
       errorMessage := if not_nullish (get b "errorMessage")
                       then sm
                       else errorMessage (behavior g);
       delayMs := if not_nullish (get b "delayMs")
                  then Math_max (Fin 0) (or_number nd (Fin 0))
                  else delayMs (behavior g) |} in
  postBehavior b g =
  ({| behavior := bh; receivedLog := receivedLog g |},
   Sent (ok_json (behavior_json bh))).
Proof.
  intros Hacc Hc Hm Hd. unfold postBehavior. rewrite Hacc, Hc, Hm, Hd.
  destruct g as [[m c e d] l]. cbn [behavior receivedLog mode errorCode
    errorMessage delayMs].
  destruct (truthy (get b "mode")), (not_nullish (get b "errorCode")),
    (not_nullish (get b "errorMessage")), (not_nullish (get b "delayMs"));
    reflexivity.
Qed.

Lemma postBehavior_log b g :
  receivedLog (fst (postBehavior b g)) = receivedLog g.
Proof.
  unfold postBehavior.
  destruct (truthy (get b "mode") && negb (includes MODES (get b "mode")));
    [reflexivity |].
  destruct (not_nullish (get b "errorCode"));
    [destruct (ToNumber (get b "errorCode")) |]; cbn [fmap option_fmap
      option_map]; try reflexivity;
    (destruct (not_nullish (get b "errorMessage"));
      [destruct (ToString (get b "errorMessage")) |]; cbn [fmap option_fmap
        option_map]; try reflexivity;
      (destruct (not_nullish (get b "delayMs"));
        [destruct (ToNumber (get b "delayMs")) |]; reflexivity)).
Qed.

Lemma behavior_ok_set_errorCode c bh :
  behavior_ok bh -> number_truthy c = true ->
  behavior_ok (set_errorCode c bh).
Proof. intros (Hm & Hd & _) Hc. repeat split; assumption. Qed.

Lemma behavior_ok_set_errorMessage m bh :
  behavior_ok bh -> behavior_ok (set_errorMessage m bh).
Proof. intros (Hm & Hd & Hc). repeat split; assumption. Qed.

Lemma behavior_ok_set_delayMs d bh :
  behavior_ok bh -> number_le (Fin 0) d = true ->
  behavior_ok (set_delayMs d bh).
Proof. intros (Hm & _ & Hc) Hd. repeat split; assumption. Qed.

Lemma behavior_ok_set_mode m bh :
  behavior_ok bh -> valid_mode m -> behavior_ok (set_mode m bh).
Proof. intros (_ & Hd & Hc) Hm. repeat split; assumption. Qed.

Lemma postBehavior_ok b g :
  behavior_ok (behavior g) -> behavior_ok (behavior (fst (postBehavior b g))).
Proof.
  intros Hok. unfold postBehavior.
  destruct (truthy (get b "mode") && negb (includes MODES (get b "mode")))
    eqn:Hacc; [exact Hok |].
  assert (Hok0 : behavior_ok
            (if truthy (get b "mode")
             then set_mode (get b "mode") (behavior g) else behavior g)).
  { destruct (truthy (get b "mode")) eqn:Ht; [| exact Hok].
    apply behavior_ok_set_mode; [exact Hok |]. apply includes_MODES.
    destruct (includes MODES (get b "mode")); [reflexivity | discriminate]. }
  set (bh0 := if truthy (get b "mode") then _ else _) in *.
  assert (Hcode : forall n, behavior_ok
            (set_errorCode (or_number n (Fin 500)) bh0))
    by (intros n; apply behavior_ok_set_errorCode;
        [exact Hok0 | apply number_truthy_or; reflexivity]).
  assert (Hdelay : forall n bh, behavior_ok bh -> behavior_ok
            (set_delayMs (Math_max (Fin 0) (or_number n (Fin 0))) bh))
    by (intros n bh Hbh; apply behavior_ok_set_delayMs;
        [exact Hbh | apply Math_max_zero_nonneg, or_number_zero_not_NaN]).
  destruct (not_nullish (get b "errorCode"));
    [destruct (ToNumber (get b "errorCode")) |];
    cbn [fmap option_fmap option_map]; try exact Hok0;
    (destruct (not_nullish (get b "errorMessage"));
      [destruct (ToString (get b "errorMessage")) |];
      cbn [fmap option_fmap option_map fst behavior]; auto;
      (destruct (not_nullish (get b "delayMs"));
        [destruct (ToNumber (get b "delayMs")) |];
        cbn [fmap option_fmap option_map fst behavior];
        auto using behavior_ok_set_errorMessage)).
Qed.

Lemma DEFAULT_BEHAVIOR_ok : behavior_ok DEFAULT_BEHAVIOR.
Proof. repeat split. left. reflexivity. Qed.

Lemma handle_resume_behavior req env g :
  behavior (fst (handle_resume req env g)) = behavior g.
Proof.
  unfold handle_resume.
  destruct (strict_eq_string (mode (behavior g)) "timeout"); [reflexivity |].
  destruct (strict_eq_string (mode (behavior g)) "error"); reflexivity.
Qed.

Lemma handle_resume_length req env g :
  (length (receivedLog g) <= MAX_LOG)%nat ->
  (length (receivedLog (fst (handle_resume req env g))) <= MAX_LOG)%nat.
Proof.
  intros Hlen. unfold handle_resume.
  destruct (strict_eq_string (mode (behavior g)) "timeout");
    [apply logReceived_length; exact Hlen |].
  destruct (strict_eq_string (mode (behavior g)) "error");
    apply logReceived_length; exact Hlen.
Qed.

Lemma handle_resume_ok req env g :
  globals_ok g -> globals_ok (fst (handle_resume req env g)).
Proof.
  intros [Hb Hl]. split.
  - rewrite handle_resume_behavior. exact Hb.
  - apply handle_resume_length. exact Hl.
Qed.

(** One turn of the event loop keeps the state well formed. *)
Lemma step_ok s ev : server_ok s -> server_ok (fst (step s ev)).
Proof.
  intros [Hg Hp]. destruct ev as [req env | rid env | | b | | |]; simpl.
  - unfold handle.
    destruct (number_gt (delayMs (behavior (globals s))) (Fin 0)).
    + split; [exact Hg |]. intros rid. simpl.
      destruct (decide (next_request s = rid)) as [<- | Hne].
      * intros _. lia.
      * rewrite lookup_insert_ne by exact Hne.
        intros Hs. specialize (Hp rid Hs). lia.
    + pose proof (handle_resume_ok req env _ Hg) as Hg'.
      destruct (handle_resume req env (globals s)) as [g' res]. simpl.
      split; [exact Hg' |]. intros rid Hs. specialize (Hp rid Hs).
      simpl. lia.
  - destruct (pending s !! rid) as [[req ms] |] eqn:Hrid;
      [| split; assumption].
    pose proof (handle_resume_ok req env _ Hg) as Hg'.
    destruct (handle_resume req env (globals s)) as [g' res]. simpl.
    split; [exact Hg' |]. intros rid' Hs. simpl in Hs |- *.
    apply Hp. destruct (decide (rid = rid')) as [-> | Hne].
    + rewrite lookup_delete_eq in Hs. destruct Hs as [? Hs]. discriminate.
    + rewrite lookup_delete_ne in Hs by exact Hne. exact Hs.
  - split; assumption.
  - destruct Hg as [Hb Hl].
    pose proof (postBehavior_ok b _ Hb) as Hb'.
    pose proof (postBehavior_log b (globals s)) as Hl'.
    destruct (postBehavior b (globals s)) as [g' r]. simpl in *.
    split; [| exact Hp]. split; [exact Hb' |].
    cbn [with_globals globals]. rewrite Hl'. exact Hl.
  - split; [| exact Hp]. split; [apply DEFAULT_BEHAVIOR_ok | apply Hg].
  - split; assumption.
  - split; [| exact Hp]. split; [apply Hg | simpl; unfold MAX_LOG; lia].
Qed.

Lemma init_server_ok : server_ok init_server.
Proof.
  split; [split; [apply DEFAULT_BEHAVIOR_ok | simpl; unfold MAX_LOG; lia] |].
  intros rid [x Hx]. simpl in Hx. rewrite lookup_empty in Hx. discriminate.
Qed.

Lemma reachable_ok s : reachable s -> server_ok s.
Proof.
  induction 1 as [| s ev _ IH]; [apply init_server_ok | apply step_ok, IH].
Qed.

Lemma get_delete_mode (b : gmap string value) (k : string) :
  k <> "mode" -> get (delete "mode" b) k = get b k.
Proof. intros Hk. unfold get. rewrite lookup_delete_ne by congruence. reflexivity. Qed.

Lemma get_delete_mode_eq (b : gmap string value) :
  get (delete "mode" b) "mode" = VUndefined.
Proof. unfold get. rewrite lookup_delete_eq. reflexivity. Qed.

(** A mode that is falsy counts for nothing: the call does what it does
    without the [mode] field. *)
Lemma postBehavior_falsy_mode b g :
  truthy (get b "mode") = false ->
  postBehavior b g = postBehavior (delete "mode" b) g.
Proof.
  intros Ht. unfold postBehavior.
  rewrite get_delete_mode_eq, !get_delete_mode by discriminate.
  rewrite Ht. reflexivity.
Qed.

(** The stored mode after an accepted call, raised or not. *)
Lemma postBehavior_mode b g :
  truthy (get b "mode") && negb (includes MODES (get b "mode")) = false ->
  mode (behavior (fst (postBehavior b g))) =
  if truthy (get b "mode") then get b "mode" else mode (behavior g).
Proof.
  intros Hacc. unfold postBehavior. rewrite Hacc.
  destruct (truthy (get b "mode")), (not_nullish (get b "errorCode")),
    (ToNumber (get b "errorCode")), (not_nullish (get b "errorMessage")),
    (ToString (get b "errorMessage")), (not_nullish (get b "delayMs")),
    (ToNumber (get b "delayMs")); reflexivity.
Qed.

(** An accepted call either raises or answers with what a [GET] then
    returns. *)
Lemma postBehavior_answer b g :
  truthy (get b "mode") && negb (includes MODES (get b "mode")) = false ->
  snd (postBehavior b g) = Raised
  \/ snd (postBehavior b g) = Sent (getBehavior (fst (postBehavior b g))).
Proof.
  intros Hacc. unfold postBehavior. rewrite Hacc.
  destruct (truthy (get b "mode")), (not_nullish (get b "errorCode")),
    (ToNumber (get b "errorCode")), (not_nullish (get b "errorMessage")),
    (ToString (get b "errorMessage")), (not_nullish (get b "delayMs")),
    (ToNumber (get b "delayMs")); auto.
Qed.

(** The stored errorCode after an accepted call: it is assigned first,
    so no later exception undoes it. *)
Lemma postBehavior_errorCode b g :
  truthy (get b "mode") && negb (includes MODES (get b "mode")) = false ->
  errorCode (behavior (fst (postBehavior b g))) =
  if not_nullish (get b "errorCode")
  then match ToNumber (get b "errorCode") with
       | Some n => or_number n (Fin 500)
       | None => errorCode (behavior g)
       end
  else errorCode (behavior g).
Proof.
  intros Hacc. unfold postBehavior. rewrite Hacc.
  destruct (truthy (get b "mode")), (not_nullish (get b "errorCode")),
    (ToNumber (get b "errorCode")), (not_nullish (get b "errorMessage")),
    (ToString (get b "errorMessage")), (not_nullish (get b "delayMs")),
    (ToNumber (get b "delayMs")); reflexivity.
Qed.

(** The stored errorMessage, when the conversion of errorCode did not
    raise. *)
Lemma postBehavior_errorMessage b g :
  truthy (get b "mode") && negb (includes MODES (get b "mode")) = false ->
  ToNumber (get b "errorCode") <> None ->
  errorMessage (behavior (fst (postBehavior b g))) =
  if not_nullish (get b "errorMessage")
  then match ToString (get b "errorMessage") with
       | Some m => m
       | None => errorMessage (behavior g)
       end
  else errorMessage (behavior g).
Proof.
  intros Hacc Hc. unfold postBehavior. rewrite Hacc.
  destruct (ToNumber (get b "errorCode")); [| contradiction].
  destruct (truthy (get b "mode")), (not_nullish (get b "errorCode")),
    (not_nullish (get b "errorMessage")),
    (ToString (get b "errorMessage")), (not_nullish (get b "delayMs")),
    (ToNumber (get b "delayMs")); reflexivity.
Qed.

(** The stored delayMs, when the two conversions before its own did not
    raise. *)
Lemma postBehavior_delayMs b g :
  truthy (get b "mode") && negb (includes MODES (get b "mode")) = false ->
  ToNumber (get b "errorCode") <> None ->
  ToString (get b "errorMessage") <> None ->
  delayMs (behavior (fst (postBehavior b g))) =
  if not_nullish (get b "delayMs")
  then match ToNumber (get b "delayMs") with
       | Some n => Math_max (Fin 0) (or_number n (Fin 0))
       | None => delayMs (behavior g)
       end
  else delayMs (behavior g).
Proof.
  intros Hacc Hc Hm. unfold postBehavior. rewrite Hacc.
  destruct (ToNumber (get b "errorCode")); [| contradiction].
  destruct (ToString (get b "errorMessage")); [| contradiction].
  destruct (truthy (get b "mode")), (not_nullish (get b "errorCode")),
    (not_nullish (get b "errorMessage")), (not_nullish (get b "delayMs")),
    (ToNumber (get b "delayMs")); reflexivity.
Qed.

(** What an exception leaves: the field whose conversion raised and the
    fields after it are not stored, and the call has no answer of its
    own. *)
Lemma postBehavior_raised b g :
  truthy (get b "mode") && negb (includes MODES (get b "mode")) = false ->
  (not_nullish (get b "errorCode") = true ->
   ToNumber (get b "errorCode") = None ->
   snd (postBehavior b g) = Raised
   /\ errorCode (behavior (fst (postBehavior b g))) = errorCode (behavior g)
   /\ errorMessage (behavior (fst (postBehavior b g))) =
      errorMessage (behavior g)
   /\ delayMs (behavior (fst (postBehavior b g))) = delayMs (behavior g))
  /\ (not_nullish (get b "errorMessage") = true ->
      ToNumber (get b "errorCode") <> None ->
      ToString (get b "errorMessage") = None ->
      snd (postBehavior b g) = Raised
      /\ errorMessage (behavior (fst (postBehavior b g))) =
         errorMessage (behavior g)
      /\ delayMs (behavior (fst (postBehavior b g))) = delayMs (behavior g))
  /\ (not_nullish (get b "delayMs") = true ->
      ToNumber (get b "errorCode") <> None ->
      ToString (get b "errorMessage") <> None ->
      ToNumber (get b "delayMs") = None ->
      snd (postBehavior b g) = Raised
      /\ delayMs (behavior (fst (postBehavior b g))) = delayMs (behavior g)).
Proof.
  intros Hacc. unfold postBehavior. rewrite Hacc.
  destruct (truthy (get b "mode")), (not_nullish (get b "errorCode")),
    (ToNumber (get b "errorCode")), (not_nullish (get b "errorMessage")),
    (ToString (get b "errorMessage")), (not_nullish (get b "delayMs")),
    (ToNumber (get b "delayMs"));
    repeat split; intros; try reflexivity; congruence.
Qed.

(** ** Claims on the behaviour store *)

(** C9.  Whatever the state before, [POST /api/behavior/reset] stores the
    default behaviour (mode normal, errorCode 500, empty errorMessage,
    delayMs 0) and answers with it, and [GET /api/behavior] then answers
    with the same defaults; the log is not touched. *)
Theorem reset_restores_defaults (g : Globals) :
  behavior (fst (postBehaviorReset g)) = DEFAULT_BEHAVIOR
  /\ snd (postBehaviorReset g) = ok_json (behavior_json DEFAULT_BEHAVIOR)
  /\ getBehavior (fst (postBehaviorReset g)) =
     ok_json (behavior_json DEFAULT_BEHAVIOR)
  /\ behavior_json DEFAULT_BEHAVIOR =
     VObj [("mode", VStr "normal"); ("errorCode", VNum (Fin 500));
           ("errorMessage", VStr ""); ("delayMs", VNum (Fin 0))]
  /\ receivedLog (fst (postBehaviorReset g)) = receivedLog g.
Proof. repeat split. Qed.

(** C7.  In every state the process can reach (after initialisation and
    after any sequence of set, reset and other operations) the stored
    mode is one of normal, error, timeout and the stored delayMs is at
    least 0; and a set with [delayMs: -5] stores delayMs 0. *)
Theorem behavior_invariant (s : Server) (Hs : reachable s) :
  valid_mode (mode (behavior (globals s)))
  /\ number_le (Fin 0) (delayMs (behavior (globals s))) = true
  /\ delayMs (behavior (globals
       (fst (step s (PostBehavior (body1 "delayMs" (VNum (Fin (-5))))))))) =
     Fin 0.
Proof.
  destruct (reachable_ok s Hs) as [[(Hm & Hd & _) _] _].
  split; [exact Hm | split; [exact Hd |]].
  simpl.
  rewrite (postBehavior_accepted _ (globals s) NaN "undefined" (Fin (-5)))
    by reflexivity.
  reflexivity.
Qed.

(** C2, amended.  A set whose mode is a non-empty string outside normal,
    error, timeout is answered 400 with the message
    [mode must be normal, error, or timeout] and changes nothing, whatever
    other fields it carries.  An empty-string mode is not validated: the
    call does exactly what it does without the mode field, so it is never
    answered with that 400, the stored mode is kept and the other fields
    are applied.  A set of one of the three modes stores it, whatever
    else the body carries; when the call answers, it answers with what
    [GET /api/behavior] then reports; and a body of the mode alone is
    answered with the behaviour in which only the mode has changed. *)
Theorem postBehavior_mode_validation (b : gmap string value) (g : Globals)
    (m : string) (Hmode : get b "mode" = VStr m) :
  (m <> "" -> ~ valid_mode (VStr m) ->
     postBehavior b g = (g, Sent INVALID_MODE)
     /\ status INVALID_MODE = Fin 400
     /\ body INVALID_MODE =
        VObj [("error", VStr "mode must be normal, error, or timeout")])
  /\ (m = "" ->
        postBehavior b g = postBehavior (delete "mode" b) g
        /\ snd (postBehavior b g) <> Sent INVALID_MODE
        /\ mode (behavior (fst (postBehavior b g))) = mode (behavior g)
        /\ (forall n, not_nullish (get b "errorCode") = true ->
              ToNumber (get b "errorCode") = Some n ->
              errorCode (behavior (fst (postBehavior b g))) =
              or_number n (Fin 500))
        /\ (forall t, not_nullish (get b "errorMessage") = true ->
              ToNumber (get b "errorCode") <> None ->
              ToString (get b "errorMessage") = Some t ->
              errorMessage (behavior (fst (postBehavior b g))) = t)
        /\ (forall n, not_nullish (get b "delayMs") = true ->
              ToNumber (get b "errorCode") <> None ->
              ToString (get b "errorMessage") <> None ->
              ToNumber (get b "delayMs") = Some n ->
              delayMs (behavior (fst (postBehavior b g))) =
              Math_max (Fin 0) (or_number n (Fin 0))))
  /\ (valid_mode (VStr m) ->
        mode (behavior (fst (postBehavior b g))) = VStr m
        /\ (forall r, snd (postBehavior b g) = Sent r ->
              r = getBehavior (fst (postBehavior b g))
              /\ status r = Fin 200)
        /\ (b = body1 "mode" (VStr m) ->
              postBehavior b g =
              ({| behavior := set_mode (VStr m) (behavior g);
                  receivedLog := receivedLog g |},
               Sent (ok_json (behavior_json (set_mode (VStr m)
                                               (behavior g)))))
              /\ getBehavior (fst (postBehavior b g)) =
                 ok_json (behavior_json (set_mode (VStr m) (behavior g))))).
Proof.
  split; [| split].
  - intros Hne Hinv. split; [| split; reflexivity].
    apply postBehavior_rejected; rewrite Hmode.
    + simpl. apply string_truthy_true. exact Hne.
    + destruct (includes MODES (VStr m)) eqn:Hi; [| reflexivity].
      apply includes_MODES in Hi. contradiction.
  - intros ->.
    assert (Ht : truthy (get b "mode") = false) by (rewrite Hmode; reflexivity).
    assert (Hacc : truthy (get b "mode")
                   && negb (includes MODES (get b "mode")) = false)
      by (rewrite Ht; reflexivity).
    split; [apply postBehavior_falsy_mode; exact Ht |].
    split; [| split; [| split; [| split]]].
    + destruct (postBehavior_answer b g Hacc) as [Hr | Hr]; rewrite Hr;
        discriminate.
    + rewrite (postBehavior_mode b g Hacc), Ht. reflexivity.
    + intros n Hp Hn.
      rewrite (postBehavior_errorCode b g Hacc), Hp, Hn. reflexivity.
    + intros t Hp Hc Ht'.
      rewrite (postBehavior_errorMessage b g Hacc Hc), Hp, Ht'. reflexivity.
    + intros n Hp Hc Hm Hn.
      rewrite (postBehavior_delayMs b g Hacc Hc Hm), Hp, Hn. reflexivity.
  - intros Hv. pose proof (proj2 (includes_MODES _) Hv) as Hi.
    assert (Hacc : truthy (get b "mode")
                   && negb (includes MODES (get b "mode")) = false)
      by (rewrite Hmode, Hi; apply andb_false_r).
    split; [| split].
    + rewrite (postBehavior_mode b g Hacc), Hmode,
        (valid_mode_truthy _ Hv). reflexivity.
    + intros r Hr.
      destruct (postBehavior_answer b g Hacc) as [Hr' | Hr'];
        rewrite Hr' in Hr; [discriminate |].
      injection Hr as <-. split; reflexivity.
    + intros ->.
      rewrite (postBehavior_accepted _ g NaN "undefined" NaN)
        by (try reflexivity; exact Hacc).
      unfold get, body1. rewrite lookup_singleton_eq.
      rewrite !lookup_singleton_ne by discriminate.
      cbn [default not_nullish Datatypes.id].
      rewrite (valid_mode_truthy _ Hv).
      destruct g as [[m0 c0 e0 d0] l0]. split; reflexivity.
Qed.

(** C3, amended.  In a set that passes the mode check, a provided
    errorCode whose conversion to a number does not raise is stored as
    that number when it is neither [NaN] nor 0, and as 500 when it is
    [NaN] or 0; a provided delayMs is stored as [max(0, number)] when the
    number is not [NaN], and as 0 when it is, provided no conversion up to
    its own raises.  When a conversion raises (an object carrying its own
    [toString]), the call ends without an answer of its own and neither
    that field nor a later one is stored. *)
Theorem postBehavior_numeric_fields (b : gmap string value) (g : Globals)
    (Hacc : truthy (get b "mode") && negb (includes MODES (get b "mode"))
            = false) :
  (forall n, not_nullish (get b "errorCode") = true ->
     ToNumber (get b "errorCode") = Some n ->
     (n <> NaN -> n <> Fin 0 ->
      errorCode (behavior (fst (postBehavior b g))) = n)
     /\ (n = NaN \/ n = Fin 0 ->
         errorCode (behavior (fst (postBehavior b g))) = Fin 500))
  /\ (forall n, not_nullish (get b "delayMs") = true ->
        ToNumber (get b "delayMs") = Some n ->
        ToNumber (get b "errorCode") <> None ->
        ToString (get b "errorMessage") <> None ->
        (n <> NaN ->
         delayMs (behavior (fst (postBehavior b g))) =
         Math_max (Fin 0) n)
        /\ (n = NaN ->
            delayMs (behavior (fst (postBehavior b g))) = Fin 0))
  /\ (not_nullish (get b "errorCode") = true ->
      ToNumber (get b "errorCode") = None ->
      snd (postBehavior b g) = Raised
      /\ errorCode (behavior (fst (postBehavior b g))) =
         errorCode (behavior g)
      /\ errorMessage (behavior (fst (postBehavior b g))) =
         errorMessage (behavior g)
      /\ delayMs (behavior (fst (postBehavior b g))) = delayMs (behavior g))
  /\ (not_nullish (get b "errorMessage") = true ->
      ToNumber (get b "errorCode") <> None ->
      ToString (get b "errorMessage") = None ->
      snd (postBehavior b g) = Raised
      /\ errorMessage (behavior (fst (postBehavior b g))) =
         errorMessage (behavior g)
      /\ delayMs (behavior (fst (postBehavior b g))) = delayMs (behavior g))
  /\ (not_nullish (get b "delayMs") = true ->
      ToNumber (get b "errorCode") <> None ->
      ToString (get b "errorMessage") <> None ->
      ToNumber (get b "delayMs") = None ->
      snd (postBehavior b g) = Raised
      /\ delayMs (behavior (fst (postBehavior b g))) = delayMs (behavior g)).
Proof.
  destruct (postBehavior_raised b g Hacc) as (Hrc & Hrm & Hrd).
  split; [| split; [| split; [| split]]].
  - intros n Hp Hn. rewrite (postBehavior_errorCode b g Hacc), Hp, Hn. split.
    + intros Hnan Hzero. apply or_number_truthy; assumption.
    + intros Hbad. apply or_number_falsy. exact Hbad.
  - intros n Hp Hn Hc Hm.
    rewrite (postBehavior_delayMs b g Hacc Hc Hm), Hp, Hn, Math_max_zero_or.
    split.
    + intros Hnan. destruct (decide _); [contradiction | reflexivity].
    + intros ->. reflexivity.
  - exact Hrc.
  - exact Hrm.
  - exact Hrd.
Qed.

(** C10.  The empty string is no message: the default behaviour carries
    it; with it stored, the error branch takes the phrase of the table, or
    [Error <code>] for a code outside the table; and an accepted set with
    [errorMessage: ""] (in which the conversion of errorCode, if one is
    sent along, does not raise) stores the empty string, so that the
    error branch logs and sends the phrase again whatever message was
    configured before. *)
Theorem empty_errorMessage_is_absent (b : gmap string value) (g : Globals)
    (req : Request) (env : Env)
    (Hacc : truthy (get b "mode") && negb (includes MODES (get b "mode"))
            = false)
    (Hmsg : get b "errorMessage" = VStr "")
    (Hcode : ToNumber (get b "errorCode") <> None) :
  let g' := fst (postBehavior b g) in
  let code := or_number (errorCode (behavior g')) (Fin 500) in
  let phrase := match reason_phrase code with
                | Some phrase => phrase
                | None => "Error " +:+ NumberToString code
                end in
  errorMessage DEFAULT_BEHAVIOR = ""
  /\ (forall bh c, errorMessage bh = "" ->
        error_msg bh c =
        match reason_phrase c with
        | Some p => p
        | None => "Error " +:+ NumberToString c
        end)
  /\ errorMessage (behavior g') = ""
  /\ (mode (behavior g') = VStr "error" ->
      handle_resume req env g' =
      (logReceived req code (Some ("chaos: " +:+ phrase)) env g',
       send code (VObj [("error", VStr phrase)]))
      /\ (valid_status code = true ->
          snd (handle_resume req env g') =
          Sent {| status := code;
                  body := VObj [("error", VStr phrase)] |})).
Proof.
  intros g' code phrase.
  assert (Hclear : errorMessage (behavior g') = "").
  { unfold g'. rewrite (postBehavior_errorMessage b g Hacc Hcode), Hmsg.
    reflexivity. }
  assert (Hphrase : forall bh c, errorMessage bh = "" ->
            error_msg bh c =
            match reason_phrase c with
            | Some p => p
            | None => "Error " +:+ NumberToString c
            end).
  { intros bh c Hbh. rewrite error_msg_effective. unfold effective_message.
    rewrite Hbh. reflexivity. }
  split; [reflexivity | split; [exact Hphrase | split; [exact Hclear |]]].
  intros Herr.
  assert (Hrun : handle_resume req env g' =
                 (logReceived req code (Some ("chaos: " +:+ phrase)) env g',
                  send code (VObj [("error", VStr phrase)]))).
  { unfold handle_resume. rewrite Herr. simpl.
    fold code. rewrite (Hphrase _ code Hclear). reflexivity. }
  split; [exact Hrun |].
  intros Hvalid. rewrite Hrun. cbn [snd]. unfold send. rewrite Hvalid.
  reflexivity.
Qed.

(** ** The event loop *)




(** A suspended call stays suspended, with its request and its delay,
    through every turn that is not the end of its own delay. *)
Lemma step_pending_kept s ev rid x :
  pending s !! rid = Some x -> (rid < next_request s)%nat ->
  other_than_timer rid ev ->
  pending (fst (step s ev)) !! rid = Some x
  /\ (rid < next_request (fst (step s ev)))%nat.
Proof.
  intros Hp Hlt Hev.
  destruct ev as [req env | rid' env | | b | | |]; simpl;
    try (split; assumption).
  - unfold handle.
    destruct (number_gt (delayMs (behavior (globals s))) (Fin 0)).
    + simpl. rewrite lookup_insert_ne by lia. split; [exact Hp | lia].
    + destruct (handle_resume req env (globals s)) as [g' res]. simpl.
      split; [exact Hp | lia].
  - assert (Hne : rid' <> rid) by (intros ->; apply (Hev env); reflexivity).
    destruct (pending s !! rid') as [[req ms] |]; [| split; assumption].
    destruct (handle_resume req env (globals s)) as [g' res]. simpl.
    rewrite lookup_delete_ne by exact Hne. split; assumption.
  - destruct (postBehavior b (globals s)) as [g' r']. simpl.
    split; assumption.
Qed.

Lemma run_pending_kept s evs rid x :
  pending s !! rid = Some x -> (rid < next_request s)%nat ->
  Forall (other_than_timer rid) evs ->
  pending (fst (run s evs)) !! rid = Some x.
Proof.
  revert s. induction evs as [| ev evs IH]; intros s Hp Hlt Hevs.
  - exact Hp.
  - inversion Hevs as [| ? ? Hev Hrest]; subst.
    destruct (step_pending_kept s ev rid x Hp Hlt Hev) as [Hp' Hlt'].
    specialize (IH (fst (step s ev)) Hp' Hlt' Hrest). simpl.
    destruct (step s ev) as [s1 r1]. simpl in *.
    destruct (run s1 evs) as [s2 rs]. exact IH.
Qed.

(** The end of a delay runs the rest of [handle] on the globals of that
    moment. *)
Lemma step_timer s rid env req ms :
  pending s !! rid = Some (req, ms) ->
  step s (TimerFired rid env) =
  ({| globals := fst (handle_resume req env (globals s));
      next_request := next_request s;
      pending := delete rid (pending s) |},
   upload_reply rid (snd (handle_resume req env (globals s)))).
Proof.
  intros Hp. simpl. rewrite Hp.
  destruct (handle_resume req env (globals s)); reflexivity.
Qed.

(** [handle] before its [await]: suspended while [delayMs > 0] holds,
    run to its end otherwise. *)
Lemma handle_delayed req env g :
  number_gt (delayMs (behavior g)) (Fin 0) = true ->
  handle req env g = Awaiting (delayMs (behavior g)).
Proof. intros Hd. unfold handle. rewrite Hd. reflexivity. Qed.

Lemma handle_direct req env g :
  number_gt (delayMs (behavior g)) (Fin 0) = false ->
  handle req env g =
  Finished (fst (handle_resume req env g)) (snd (handle_resume req env g)).
Proof.
  intros Hd. unfold handle. rewrite Hd.
  destruct (handle_resume req env g); reflexivity.
Qed.

(** An upload that arrives while [delayMs > 0] is suspended at once. *)
Lemma step_upload_delayed s req env :
  number_gt (delayMs (behavior (globals s))) (Fin 0) = true ->
  step s (Upload req env) =
  ({| globals := globals s;
      next_request := S (next_request s);
      pending := <[next_request s :=
                     (req, delayMs (behavior (globals s)))]> (pending s) |},
   None).
Proof. intros Hd. simpl. rewrite (handle_delayed _ _ _ Hd). reflexivity. Qed.

(** An upload that arrives while [delayMs > 0] fails runs to its end. *)
Lemma step_upload_direct s req env :
  number_gt (delayMs (behavior (globals s))) (Fin 0) = false ->
  step s (Upload req env) =
  ({| globals := fst (handle_resume req env (globals s));
      next_request := S (next_request s);
      pending := pending s |},
   upload_reply (next_request s) (snd (handle_resume req env (globals s)))).
Proof.
  intros Hd. simpl. rewrite (handle_direct _ _ _ Hd). reflexivity.
Qed.

(** ** The three branches of the upload handler *)

Lemma handle_resume_timeout req env g :
  mode (behavior g) = VStr "timeout" ->
  handle_resume req env g =
  (logReceived req (Fin 0) (Some "timeout (no response sent)") env g,
   Silent).
Proof. intros Hm. unfold handle_resume. rewrite Hm. reflexivity. Qed.

Lemma handle_resume_error req env g :
  mode (behavior g) = VStr "error" ->
  handle_resume req env g =
  (logReceived req (or_number (errorCode (behavior g)) (Fin 500))
     (Some ("chaos: " +:+
            effective_message (errorMessage (behavior g))
              (or_number (errorCode (behavior g)) (Fin 500))))
     env g,
   send (or_number (errorCode (behavior g)) (Fin 500))
     (VObj [("error",
             VStr (effective_message (errorMessage (behavior g))
                     (or_number (errorCode (behavior g)) (Fin 500))))])).
Proof.
  intros Hm. unfold handle_resume. rewrite Hm. simpl.
  rewrite error_msg_effective. reflexivity.
Qed.

Lemma handle_resume_normal req env g :
  mode (behavior g) = VStr "normal" ->
  handle_resume req env g =
  (logReceived req (Fin 200) None env g,
   Sent {| status := Fin 200;
           body := VObj [("ok", VBool true);
                         ("message", VStr "PDF received");
                         ("filename",
                          option_json VStr (file_name (file req)))] |}).
Proof. intros Hm. unfold handle_resume. rewrite Hm. reflexivity. Qed.

Lemma or_number_id (a b : number) :
  number_truthy a = true -> or_number a b = a.
Proof. intros Ha. unfold or_number. rewrite Ha. reflexivity. Qed.

Lemma run_reachable s evs : reachable s -> reachable (fst (run s evs)).
Proof.
  revert s. induction evs as [| ev evs IH]; intros s Hs; [exact Hs |].
  specialize (IH (fst (step s ev)) (reachable_step s ev Hs)). simpl.
  destruct (step s ev) as [s1 r1]. simpl in IH.
  destruct (run s1 evs) as [s2 rs]. exact IH.
Qed.

(** ** Claims on the upload handler *)




(** C1, amended.  [handle] reads [delayMs] once, on arrival.  When it is
    not above 0 the request is handled at once, on the behaviour of that
    moment.  When it is above 0 the call is suspended on a timer of that
    [delayMs] and nothing is read, recorded or sent until the delay ends;
    whatever the control surface and other requests did in between, the
    rest of [handle] then runs on the behaviour of the moment the delay
    ends: the branch taken and the chaosMode recorded are those of the
    mode current at the end of the delay. *)
Theorem handle_reads_mode_after_delay (s : Server) (req : Request)
    (env env' : Env) (evs : list Event)
    (Hs : reachable s)
    (Hevs : Forall (other_than_timer (next_request s)) evs) :
  (number_gt (delayMs (behavior (globals s))) (Fin 0) = false ->
     handle req env (globals s) =
     Finished (fst (handle_resume req env (globals s)))
       (snd (handle_resume req env (globals s)))
     /\ globals (fst (step s (Upload req env))) =
        fst (handle_resume req env (globals s))
     /\ snd (step s (Upload req env)) =
        upload_reply (next_request s)
          (snd (handle_resume req env (globals s))))
  /\ (number_gt (delayMs (behavior (globals s))) (Fin 0) = true ->
      let rid := next_request s in
      let s2 := fst (run (fst (step s (Upload req env))) evs) in
      let fired := step s2 (TimerFired rid env') in
      handle req env (globals s) = Awaiting (delayMs (behavior (globals s)))
      /\ snd (step s (Upload req env)) = None
      /\ globals (fst (step s (Upload req env))) = globals s
      /\ pending s2 !! rid = Some (req, delayMs (behavior (globals s)))
      /\ globals (fst fired) = fst (handle_resume req env' (globals s2))
      /\ snd fired =
         upload_reply rid (snd (handle_resume req env' (globals s2)))
      /\ (exists e,
            head (receivedLog (globals (fst fired))) = Some e
            /\ chaosMode e = mode (behavior (globals s2)))
      /\ (mode (behavior (globals s2)) = VStr "timeout" ->
          snd fired = None)
      /\ (mode (behavior (globals s2)) = VStr "error" ->
          valid_status (errorCode (behavior (globals s2))) = true ->
          exists r, snd fired = Some (UploadReply rid r)
                    /\ status r = errorCode (behavior (globals s2)))
      /\ (mode (behavior (globals s2)) = VStr "error" ->
          valid_status (errorCode (behavior (globals s2))) = false ->
          snd fired = Some (UploadRaised rid))
      /\ (mode (behavior (globals s2)) = VStr "normal" ->
          exists r, snd fired = Some (UploadReply rid r)
                    /\ status r = Fin 200)).
Proof.
  split.
  - intros Hd. rewrite (step_upload_direct s req env Hd).
    split; [apply handle_direct; exact Hd | split; reflexivity].
  - intros Hd rid s2 fired.
    pose proof (step_upload_delayed s req env Hd) as Hup.
    assert (Hp2 : pending s2 !! rid
                  = Some (req, delayMs (behavior (globals s)))).
    { subst s2. apply run_pending_kept; rewrite ?Hup; simpl.
      - apply lookup_insert_eq.
      - unfold rid. lia.
      - exact Hevs. }
    assert (Hs2 : reachable s2)
      by (subst s2; apply run_reachable, reachable_step, Hs).
    destruct (reachable_ok s2 Hs2) as [[(_ & _ & Hc) _] _].
    pose proof (step_timer s2 rid env' req _ Hp2) as Hfired.
    fold fired in Hfired.
    split; [apply handle_delayed; exact Hd |].
    split; [rewrite Hup; reflexivity |].
    split; [rewrite Hup; reflexivity |].
    split; [exact Hp2 |].
    split; [rewrite Hfired; reflexivity |].
    split; [rewrite Hfired; reflexivity |].
    rewrite Hfired. cbn [fst snd globals].
    split; [| split; [| split; [| split]]].
    + unfold handle_resume.
      destruct (strict_eq_string (mode (behavior (globals s2))) "timeout");
        [| destruct (strict_eq_string (mode (behavior (globals s2)))
                       "error")];
        cbn [fst]; rewrite logReceived_head; eexists;
        (split; [reflexivity | reflexivity]).
    + intros Hm. rewrite (handle_resume_timeout _ _ _ Hm). reflexivity.
    + intros Hm Hv. rewrite (handle_resume_error _ _ _ Hm).
      rewrite (or_number_id _ _ Hc). cbn [snd]. unfold send. rewrite Hv.
      eexists. split; reflexivity.
    + intros Hm Hv. rewrite (handle_resume_error _ _ _ Hm).
      rewrite (or_number_id _ _ Hc). cbn [snd]. unfold send. rewrite Hv.
      reflexivity.
    + intros Hm. rewrite (handle_resume_normal _ _ _ Hm).
      eexists. split; reflexivity.
Qed.

(** ** The bound of the request log *)

(** C6.  The log of a reachable state holds at most 200 entries; a record
    puts its entry first and, when the log was full, drops the last (the
    oldest) one and nothing else; 205 records into an empty log leave
    exactly 200 entries, those of the last 200 calls, the newest first. *)
Theorem log_bounded_newest_first (s : Server) (c : Call) (cs : list Call)
    (g0 : Globals)
    (Hs : reachable s)
    (Hempty : receivedLog g0 = [])
    (H205 : length cs = 205%nat) :
  (length (receivedLog (globals s)) <= 200)%nat
  /\ ((length (receivedLog (globals s)) < 200)%nat ->
      receivedLog (record c (globals s)) =
      call_entry (mode (behavior (globals s))) c :: receivedLog (globals s))
  /\ (length (receivedLog (globals s)) = 200%nat ->
      receivedLog (record c (globals s)) =
      call_entry (mode (behavior (globals s))) c
        :: removelast (receivedLog (globals s)))
  /\ length (receivedLog (record_all cs g0)) = 200%nat
  /\ receivedLog (record_all cs g0) =
     rev (map (call_entry (mode (behavior g0))) (drop 5 cs)).
Proof.
  destruct (reachable_ok s Hs) as [[_ Hlen] _].
  assert (Hall : receivedLog (record_all cs g0) =
                 rev (map (call_entry (mode (behavior g0))) (drop 5 cs))).
  { rewrite record_all_log by (rewrite Hempty; simpl; lia).
    rewrite Hempty, app_nil_r, firstn_rev, length_map, H205.
    unfold MAX_LOG. simpl Nat.sub. rewrite skipn_map. reflexivity. }
  split; [exact Hlen | split; [| split; [| split; [| exact Hall]]]].
  - intros Hlt. unfold record. rewrite logReceived_log by exact Hlen.
    apply take_ge. simpl. unfold MAX_LOG. lia.
  - intros Hfull. unfold record. rewrite logReceived_log by exact Hlen.
    rewrite removelast_firstn_len, Hfull. reflexivity.
  - rewrite Hall, length_rev, length_map, length_drop, H205. reflexivity.
Qed.

End Runtime.

(** ** The claims on concrete inputs *)

(** C1 as stated fails: the upload arrives while the mode is normal and
    waits 1000 ms; the mode is set to error during the wait; at the end
    of the delay the request is answered 500 and logged with chaosMode
    error, not with the mode current when its handling started. *)
Lemma mode_change_during_delay_is_seen :
  mode (behavior (globals delayed_server)) = VStr "normal"
  /\ @step decimal_runtime delayed_server
       (Upload sample_request (sample_env 0)) = (waiting_server, None)
  /\ snd (@step decimal_runtime switched_server
            (TimerFired 0 (sample_env 1))) =
     Some (UploadReply 0
             {| status := Fin 500;
                body := VObj [("error", VStr "Internal Server Error")] |})
  /\ chaosMode <$>
       head (receivedLog (globals
         (fst (@step decimal_runtime switched_server
                 (TimerFired 0 (sample_env 1)))))) =
     Some (VStr "error")
  /\ VStr "error" <> mode (behavior (globals delayed_server)).
Proof.
  split; [reflexivity |]. split; [vm_compute; reflexivity |].
  split; [vm_compute; reflexivity |]. split; [vm_compute; reflexivity |].
  vm_compute. discriminate.
Qed.

Lemma delayed_server_reachable : @reachable decimal_runtime delayed_server.
Proof. exact (reachable_step init_server _ reachable_init). Qed.

Lemma handle_reads_mode_after_delay_witness :
  @reachable decimal_runtime delayed_server
  /\ Forall (other_than_timer (next_request delayed_server))
       [PostBehavior (body1 "mode" (VStr "error"))]
  /\ number_gt (delayMs (behavior (globals delayed_server))) (Fin 0) = true
  /\ exists e,
       head (receivedLog (globals
         (fst (@step decimal_runtime switched_server
                 (TimerFired 0 (sample_env 1)))))) = Some e
       /\ chaosMode e = mode (behavior (globals switched_server)).
Proof.
  assert (Hevs : Forall (other_than_timer (next_request delayed_server))
                   [PostBehavior (body1 "mode" (VStr "error"))]).
  { repeat constructor. intros env. discriminate. }
  split; [exact delayed_server_reachable |].
  split; [exact Hevs |]. split; [reflexivity |].
  destruct (proj2 (@handle_reads_mode_after_delay decimal_runtime
              delayed_server sample_request (sample_env 0) (sample_env 1)
              [PostBehavior (body1 "mode" (VStr "error"))]
              delayed_server_reachable Hevs) eq_refl)
    as (_ & _ & _ & _ & _ & _ & He & _).
  exact He.
Defined.

(** C2 as stated fails: the empty string is a string outside the three
    modes, yet a set with [mode: ""] and [errorCode: 503] is accepted,
    answered 200 and stores the code. *)
Lemma postBehavior_empty_mode_accepted :
  get (body2 "mode" (VStr "") "errorCode" (VNum (Fin 503))) "mode" = VStr ""
  /\ ~ valid_mode (VStr "")
  /\ snd (@postBehavior decimal_runtime
            (body2 "mode" (VStr "") "errorCode" (VNum (Fin 503)))
            init_globals) =
     Sent (ok_json
             (VObj [("mode", VStr "normal"); ("errorCode", VNum (Fin 503));
                    ("errorMessage", VStr ""); ("delayMs", VNum (Fin 0))]))
  /\ errorCode (behavior (fst (@postBehavior decimal_runtime
                   (body2 "mode" (VStr "") "errorCode" (VNum (Fin 503)))
                   init_globals))) = Fin 503
  /\ @postBehavior decimal_runtime
       (body2 "mode" (VStr "") "errorCode" (VNum (Fin 503))) init_globals
     <> (init_globals, Sent INVALID_MODE).
Proof.
  split; [reflexivity |]. split.
  - intros [Hv | [Hv | Hv]]; discriminate.
  - split; [reflexivity |]. split; [reflexivity |].
    intros Heq. apply (f_equal snd) in Heq.
    vm_compute in Heq. discriminate.
Qed.

Lemma postBehavior_mode_validation_witness :
  get (body2 "mode" (VStr "bogus") "errorCode" (VNum (Fin 503))) "mode"
  = VStr "bogus"
  /\ @postBehavior decimal_runtime
       (body2 "mode" (VStr "bogus") "errorCode" (VNum (Fin 503)))
       init_globals = (init_globals, Sent INVALID_MODE).
Proof.
  split; [reflexivity |].
  refine (proj1 (proj1 (@postBehavior_mode_validation decimal_runtime
    (body2 "mode" (VStr "bogus") "errorCode" (VNum (Fin 503)))
    init_globals "bogus" eq_refl) _ _)).
  - discriminate.
  - intros [Hv | [Hv | Hv]]; discriminate.
Defined.

(** C3 as stated fails: 0 is a number, yet a set with [errorCode: 0] on a
    store holding 503 stores 500. *)
Lemma postBehavior_errorCode_zero :
  errorCode (behavior globals_503) = Fin 503
  /\ not_nullish (VNum (Fin 0)) = true
  /\ @ToNumber decimal_runtime (VNum (Fin 0)) = Some (Fin 0)
  /\ errorCode (behavior (fst (@postBehavior decimal_runtime
                   (body1 "errorCode" (VNum (Fin 0))) globals_503)))
     = Fin 500
  /\ errorCode (behavior (fst (@postBehavior decimal_runtime
                   (body1 "errorCode" (VNum (Fin 0))) globals_503)))
     <> Fin 0.
Proof.
  split; [reflexivity |]. split; [reflexivity |]. split; [reflexivity |].
  split; [reflexivity |]. vm_compute. discriminate.
Qed.

Lemma postBehavior_numeric_fields_witness :
  truthy (get (body2 "errorCode" (VNum (Fin 503))
                 "delayMs" (VNum (Fin (-5)))) "mode")
  && negb (includes MODES
             (get (body2 "errorCode" (VNum (Fin 503))
                     "delayMs" (VNum (Fin (-5)))) "mode")) = false
  /\ errorCode (behavior (fst (@postBehavior decimal_runtime
                   (body2 "errorCode" (VNum (Fin 503))
                      "delayMs" (VNum (Fin (-5)))) init_globals)))
     = Fin 503
  /\ delayMs (behavior (fst (@postBehavior decimal_runtime
                   (body2 "errorCode" (VNum (Fin 503))
                      "delayMs" (VNum (Fin (-5)))) init_globals)))
     = Fin 0.
Proof.
  split; [reflexivity |].
  destruct (@postBehavior_numeric_fields decimal_runtime
    (body2 "errorCode" (VNum (Fin 503)) "delayMs" (VNum (Fin (-5))))
    init_globals eq_refl) as (Hcode & Hdelay & _).
  split.
  - apply (proj1 (Hcode (Fin 503) eq_refl eq_refl)); discriminate.
  - apply (proj1 (Hdelay (Fin (-5)) eq_refl eq_refl
                    ltac:(discriminate) ltac:(discriminate))).
    discriminate.
Defined.

Lemma failing_server_reachable : @reachable decimal_runtime failing_server.
Proof. exact (reachable_step init_server _ reachable_init). Qed.

Lemma hanging_server_reachable : @reachable decimal_runtime hanging_server.
Proof. exact (reachable_step init_server _ reachable_init). Qed.





Lemma log_bounded_newest_first_witness :
  @reachable decimal_runtime init_server
  /\ receivedLog init_globals = []
  /\ length (map sample_call (seq 0 205)) = 205%nat
  /\ length (receivedLog
               (record_all (map sample_call (seq 0 205)) init_globals))
     = 200%nat
  /\ receivedLog (record_all (map sample_call (seq 0 205)) init_globals) =
     rev (map (call_entry (mode (behavior init_globals)))
            (drop 5 (map sample_call (seq 0 205)))).
Proof.
  split; [exact reachable_init |]. split; [reflexivity |].
  split; [reflexivity |].
  exact (proj2 (proj2 (proj2
    (@log_bounded_newest_first decimal_runtime init_server (sample_call 0)
       (map sample_call (seq 0 205)) init_globals reachable_init
       eq_refl eq_refl)))).
Defined.

Lemma behavior_invariant_witness :
  @reachable decimal_runtime delayed_server
  /\ valid_mode (mode (behavior (globals delayed_server)))
  /\ number_le (Fin 0) (delayMs (behavior (globals delayed_server))) = true
  /\ delayMs (behavior (globals
       (fst (@step decimal_runtime delayed_server
               (PostBehavior (body1 "delayMs" (VNum (Fin (-5))))))))) =
     Fin 0.
Proof.
  split; [exact delayed_server_reachable |].
  exact (@behavior_invariant decimal_runtime delayed_server
           delayed_server_reachable).
Defined.

Lemma empty_errorMessage_is_absent_witness :
  truthy (get (body1 "errorMessage" (VStr "")) "mode")
  && negb (includes MODES (get (body1 "errorMessage" (VStr "")) "mode"))
  = false
  /\ get (body1 "errorMessage" (VStr "")) "errorMessage" = VStr ""
  /\ @ToNumber decimal_runtime
       (get (body1 "errorMessage" (VStr "")) "errorCode") <> None
  /\ errorMessage (behavior (error_globals (Fin 503) "Custom")) = "Custom"
  /\ snd (@handle_resume decimal_runtime bare_request (sample_env 0)
            (fst (@postBehavior decimal_runtime
                    (body1 "errorMessage" (VStr ""))
                    (error_globals (Fin 503) "Custom")))) =
     Sent {| status := Fin 503;
             body := VObj [("error", VStr "Service Unavailable")] |}.
Proof.
  assert (Hcode : @ToNumber decimal_runtime
            (get (body1 "errorMessage" (VStr "")) "errorCode") <> None)
    by discriminate.
  split; [reflexivity |]. split; [reflexivity |]. split; [exact Hcode |].
  split; [reflexivity |].
  destruct (@empty_errorMessage_is_absent decimal_runtime
              (body1 "errorMessage" (VStr ""))
              (error_globals (Fin 503) "Custom")
              bare_request (sample_env 0) eq_refl eq_refl Hcode)
    as (_ & _ & _ & Herr).
  exact (proj2 (Herr eq_refl) eq_refl).
Defined.

(** * Further properties of the code *)

(** ** [escapeHtml] *)

Lemma append_cons (c : ascii) (s t : string) :
  String c s +:+ t = String c (s +:+ t).
Proof. reflexivity. Qed.

Lemma append_nil_l (t : string) : "" +:+ t = t.
Proof. reflexivity. Qed.

Lemma append_assoc (s t u : string) : (s +:+ t) +:+ u = s +:+ (t +:+ u).
Proof.
  induction s as [| c s IH]; [reflexivity |].
  rewrite !append_cons, IH. reflexivity.
Qed.

Lemma replace_all_app c by_ s t :
  replace_all c by_ (s +:+ t) = replace_all c by_ s +:+ replace_all c by_ t.
Proof.
  induction s as [| a s IH]; [reflexivity |].
  rewrite append_cons. cbn [replace_all]. rewrite IH.
  destruct (Ascii.eqb a c); [| reflexivity].
  symmetry. apply append_assoc.
Qed.

Lemma occurs_app c s t : occurs c (s +:+ t) = occurs c s || occurs c t.
Proof.
  induction s as [| a s IH]; [reflexivity |].
  rewrite append_cons. cbn [occurs]. rewrite IH. apply orb_assoc.
Qed.

Ltac split_char c :=
  unfold escape_char;
  destruct (Ascii.eqb_spec c "&"%char) as [-> | ?];
  [| destruct (Ascii.eqb_spec c "<"%char) as [-> | ?];
     [| destruct (Ascii.eqb_spec c ">"%char) as [-> | ?];
        [| destruct (Ascii.eqb_spec c QUOT) as [-> | ?]]]].

(** The four replacements of the source, one after the other, escape each
    character of the input once. *)
Lemma replace_all_one_pass (s : string) :
  replace_all QUOT "&quot;"
    (replace_all ">"%char "&gt;"
       (replace_all "<"%char "&lt;" (replace_all "&"%char "&amp;" s))) =
  escape_chars s.
Proof.
  induction s as [| c s IH]; [reflexivity |].
  cbn [replace_all escape_chars]. rewrite <- IH.
  split_char c.
  - rewrite !replace_all_app. reflexivity.
  - cbn [Ascii.eqb Bool.eqb]. cbn [replace_all].
    cbn [Ascii.eqb Bool.eqb]. rewrite !replace_all_app. reflexivity.
  - cbn [Ascii.eqb Bool.eqb]. cbn [replace_all].
    cbn [Ascii.eqb Bool.eqb]. cbn [replace_all].
    cbn [Ascii.eqb Bool.eqb]. rewrite !replace_all_app. reflexivity.
  - unfold QUOT. cbn [Ascii.eqb Bool.eqb]. cbn [replace_all].
    cbn [Ascii.eqb Bool.eqb]. cbn [replace_all].
    cbn [Ascii.eqb Bool.eqb]. cbn [replace_all].
    cbn [Ascii.eqb Bool.eqb]. reflexivity.
  - destruct (Ascii.eqb_spec c "&"%char); [contradiction |].
    cbn [replace_all].
    destruct (Ascii.eqb_spec c "<"%char); [contradiction |].
    cbn [replace_all].
    destruct (Ascii.eqb_spec c ">"%char); [contradiction |].
    cbn [replace_all].
    destruct (Ascii.eqb_spec c QUOT); [contradiction |]. reflexivity.
Qed.

Lemma occurs_escape_chars (c : ascii) (s : string) :
  c = "<"%char \/ c = ">"%char \/ c = QUOT ->
  occurs c (escape_chars s) = false.
Proof.
  intros Hc. induction s as [| a s IH]; [reflexivity |].
  cbn [escape_chars]. rewrite occurs_app, IH, orb_false_r.
  split_char a; try (destruct Hc as [-> | [-> | ->]]; reflexivity).
  cbn [occurs]. rewrite orb_false_r.
  destruct (Ascii.eqb_spec a c) as [-> | _]; [| reflexivity].
  destruct Hc as [-> | [-> | ->]]; contradiction.
Qed.

Lemma escape_chars_markup_free (s : string) : markup_free (escape_chars s).
Proof.
  repeat split; apply occurs_escape_chars; auto.
Qed.

Lemma escape_chars_inj (s t : string) :
  escape_chars s = escape_chars t -> s = t.
Proof.
  revert t. induction s as [| c s IH]; intros [| d t] Heq.
  - reflexivity.
  - exfalso. cbn [escape_chars] in Heq. revert Heq.
    split_char d; rewrite ?append_cons; discriminate.
  - exfalso. cbn [escape_chars] in Heq. revert Heq.
    split_char c; rewrite ?append_cons; discriminate.
  - cbn [escape_chars] in Heq. revert Heq.
    split_char c; split_char d; rewrite ?append_cons, ?append_nil_l;
      intros Heq; try discriminate;
      try (injection Heq as Heq; f_equal; apply IH; exact Heq);
      try (injection Heq as -> Heq; f_equal; apply IH; exact Heq);
      try (injection Heq; intros; subst; contradiction).
Qed.

Section Extras.
Context `{JSRuntime}.

Lemma escapeHtml_escape_chars (v : value) :
  escapeHtml v = escape_chars <$> ToString v.
Proof.
  unfold escapeHtml. destruct (ToString v) as [str |]; [| reflexivity].
  simpl. rewrite replace_all_one_pass. reflexivity.
Qed.

(** X1.  Whenever [escapeHtml] returns (it raises only where [String]
    raises), the string it returns has no [<], no [>] and no double
    quote; on a string it always returns. *)
Theorem escapeHtml_markup_free (v : value) (t : string) :
  (forall s, escapeHtml v = Some s -> markup_free s)
  /\ (escapeHtml v = None <-> ToString v = None)
  /\ exists s, escapeHtml (VStr t) = Some s /\ markup_free s.
Proof.
  rewrite !escapeHtml_escape_chars. split; [| split].
  - intros s. destruct (ToString v) as [str |]; [| discriminate].
    intros [= <-]. apply escape_chars_markup_free.
  - destruct (ToString v); simpl; split; intros; congruence.
  - eexists. split; [reflexivity | apply escape_chars_markup_free].
Qed.

(** X2.  The four replacements of [escapeHtml] never escape twice: the
    result is the input with each [&], [<], [>] and double quote replaced
    once by its entity and every other character kept, so that escaping
    distributes over concatenation. *)
Theorem escapeHtml_one_pass (v : value) (s t : string) :
  escapeHtml v = escape_chars <$> ToString v
  /\ escapeHtml (VStr (s +:+ t)) =
     (a ← escapeHtml (VStr s); b ← escapeHtml (VStr t); Some (a +:+ b)).
Proof.
  rewrite !escapeHtml_escape_chars. split; [reflexivity |].
  cbn [ToString fmap option_fmap option_map mbind option_bind]. f_equal.
  induction s as [| c s IH]; [reflexivity |].
  rewrite append_cons. cbn [escape_chars]. rewrite IH.
  symmetry. apply append_assoc.
Qed.

(** X3.  [escapeHtml] loses nothing: two strings with the same escape are
    the same string. *)
Theorem escapeHtml_injective (s t : string)
    (Heq : escapeHtml (VStr s) = escapeHtml (VStr t)) :
  s = t.
Proof.
  rewrite !escapeHtml_escape_chars in Heq. injection Heq as Heq.
  apply escape_chars_inj. exact Heq.
Qed.

(** ** [formatBytes] *)

Lemma nearest_tenth (z d : Z) :
  0 <= z -> 0 < d ->
  let t := (20 * Z.abs z + d) / (2 * d) in
  0 <= t mod 10 <= 9
  /\ - d <= 2 * (10 * z - d * (10 * (t / 10) + t mod 10)) < d
  /\ (d <= z -> 1 <= t / 10).
Proof.
  intros Hz Hd. rewrite Z.abs_eq by exact Hz. intros t.
  pose proof (Z.div_mod (20 * z + d) (2 * d) ltac:(lia)) as Hdm.
  pose proof (Z.mod_pos_bound (20 * z + d) (2 * d) ltac:(lia)) as Hm.
  change ((20 * z + d) / (2 * d)) with t in Hdm.
  pose proof (Z.div_mod t 10 ltac:(lia)) as Ht.
  pose proof (Z.mod_pos_bound t 10 ltac:(lia)) as Htm.
  split; [lia |]. split; [nia |].
  intros Hle. assert (10 <= t); [| lia].
  subst t. apply Z.div_le_lower_bound; lia.
Qed.

(** X4.  A size from 1024 up, as long as its quotient by 1024 * 1024
    stays below 1e21, is shown in KB below 1024 * 1024 and in MB from
    there on, as the quotient by 1024 (by 1024 * 1024) rounded to the
    nearest tenth, a tie going up, with exactly one decimal digit and a
    whole part of at least 1. *)
Theorem formatBytes_rounding (z : Z) (Hz : 1024 <= z)
    (Hmax : z < 1048576 * 10 ^ 21) :
  exists w f d unit,
    formatBytes (Some (Fin z)) = pretty w +:+ "." +:+ pretty f +:+ unit
    /\ 1 <= w /\ 0 <= f <= 9
    /\ ((z < 1048576 /\ d = 1024 /\ unit = " KB")
        \/ (1048576 <= z /\ d = 1048576 /\ unit = " MB"))
    /\ - d <= 2 * (10 * z - d * (10 * w + f)) < d.
Proof.
  rewrite ten_pow_21 in Hmax.
  unfold formatBytes. cbn [number_lt].
  destruct (Z.ltb_spec z 1024) as [? | _]; [lia |].
  destruct (Z.ltb_spec z (1024 * 1024)) as [Hkb | Hmb].
  - destruct (nearest_tenth z 1024 ltac:(lia) ltac:(lia)) as (Hf & Hnear & Hw).
    eexists _, _, 1024, " KB". split; [| split; [apply Hw; lia |
      split; [exact Hf | split; [left; repeat split; lia | exact Hnear]]]].
    unfold div_toFixed1. destruct (Z.ltb_spec z 0) as [? | _]; [lia |].
    rewrite ten_pow_21.
    destruct (Z.ltb_spec (Z.abs z / 1024) 1000000000000000000000)
      as [_ | Hbig].
    + rewrite append_nil_l, !append_assoc. reflexivity.
    + exfalso. rewrite Z.abs_eq in Hbig by lia.
      assert (z / 1024 < 1024)
        by (apply Z.div_lt_upper_bound; lia).
      lia.
  - destruct (nearest_tenth z 1048576 ltac:(lia) ltac:(lia))
      as (Hf & Hnear & Hw).
    eexists _, _, 1048576, " MB". split; [| split; [apply Hw; lia |
      split; [exact Hf | split; [right; repeat split; lia | exact Hnear]]]].
    unfold div_toFixed1. destruct (Z.ltb_spec z 0) as [? | _]; [lia |].
    rewrite ten_pow_21.
    destruct (Z.ltb_spec (Z.abs z / (1024 * 1024)) 1000000000000000000000)
      as [_ | Hbig].
    + rewrite append_nil_l, !append_assoc. reflexivity.
    + exfalso. rewrite Z.abs_eq in Hbig by lia.
      assert (z / (1024 * 1024) < 1000000000000000000000)
        by (apply Z.div_lt_upper_bound; lia).
      lia.
Qed.

(** ** More on the behaviour store *)


(** X5.  Sending the same body to [POST /api/behavior] twice in a row is
    the same as sending it once: the second call leaves the state of the
    first and gives the same answer. *)
Theorem postBehavior_idempotent (b : gmap string value) (g : Globals) :
  postBehavior b (fst (postBehavior b g)) = postBehavior b g.
Proof.
  unfold postBehavior.
  destruct (truthy (get b "mode") && negb (includes MODES (get b "mode")))
    eqn:Hacc; [reflexivity |].
  destruct g as [[m0 c0 e0 d0] l0].
  destruct (truthy (get b "mode")), (not_nullish (get b "errorCode")),
    (ToNumber (get b "errorCode")), (not_nullish (get b "errorMessage")),
    (ToString (get b "errorMessage")), (not_nullish (get b "delayMs")),
    (ToNumber (get b "delayMs")); reflexivity.
Qed.

(** X6.  A body in which each of the four fields is missing or [null]
    (the empty body among them) changes nothing and is answered 200 with
    the current behaviour. *)
Theorem postBehavior_nothing_provided (b : gmap string value) (g : Globals)
    (Hmode : not_nullish (get b "mode") = false)
    (Hcode : not_nullish (get b "errorCode") = false)
    (Hmsg : not_nullish (get b "errorMessage") = false)
    (Hdelay : not_nullish (get b "delayMs") = false) :
  postBehavior b g = (g, Sent (getBehavior g)).
Proof.
  assert (Ht : truthy (get b "mode") = false)
    by (destruct (get b "mode"); try discriminate; reflexivity).
  unfold postBehavior. rewrite Ht, Hcode, Hmsg, Hdelay.
  destruct g as [[m c e d] l]. reflexivity.
Qed.

(** X7.  A mode that is not a string is never stored: [true], a number
    other than 0 and [NaN], an array and an object are rejected with 400
    and no change, while [false], 0, [NaN], [null] and a missing mode are
    passed over: the call does exactly what it does without the mode
    field, keeps the stored mode and is not answered with that 400. *)
Theorem postBehavior_mode_not_a_string (b : gmap string value)
    (g : Globals) :
  match get b "mode" with
  | VStr _ => True
  | VBool true | VArr _ | VObj _ =>
      postBehavior b g = (g, Sent INVALID_MODE)
  | VNum n =>
      if number_truthy n then postBehavior b g = (g, Sent INVALID_MODE)
      else postBehavior b g = postBehavior (delete "mode" b) g
           /\ mode (behavior (fst (postBehavior b g))) = mode (behavior g)
           /\ snd (postBehavior b g) <> Sent INVALID_MODE
  | VBool false | VNull | VUndefined =>
      postBehavior b g = postBehavior (delete "mode" b) g
      /\ mode (behavior (fst (postBehavior b g))) = mode (behavior g)
      /\ snd (postBehavior b g) <> Sent INVALID_MODE
  end.
Proof.
  assert (Hkeep : truthy (get b "mode") = false ->
            postBehavior b g = postBehavior (delete "mode" b) g
            /\ mode (behavior (fst (postBehavior b g))) = mode (behavior g)
            /\ snd (postBehavior b g) <> Sent INVALID_MODE).
  { intros Ht.
    assert (Hacc : truthy (get b "mode")
                   && negb (includes MODES (get b "mode")) = false)
      by (rewrite Ht; reflexivity).
    split; [apply postBehavior_falsy_mode; exact Ht |]. split.
    - rewrite (postBehavior_mode b g Hacc), Ht. reflexivity.
    - destruct (postBehavior_answer b g Hacc) as [Hr | Hr]; rewrite Hr;
        discriminate. }
  destruct (get b "mode") as [| | [|] | n | s | xs | fs] eqn:Hm;
    try (apply Hkeep; reflexivity);
    try (apply postBehavior_rejected; rewrite Hm; reflexivity);
    [| exact I].
  destruct (number_truthy n) eqn:Hn.
  - apply postBehavior_rejected; rewrite Hm; [exact Hn | reflexivity].
  - apply Hkeep. exact Hn.
Qed.

(** X8.  In every state the process can reach the stored errorCode is
    neither 0 nor [NaN], so the guard [behavior.errorCode || 500] of
    [handle] never replaces it. *)
Theorem errorCode_never_falsy (s : Server) (Hs : reachable s) :
  errorCode (behavior (globals s)) <> NaN
  /\ errorCode (behavior (globals s)) <> Fin 0
  /\ or_number (errorCode (behavior (globals s))) (Fin 500) =
     errorCode (behavior (globals s)).
Proof.
  destruct (reachable_ok s Hs) as [[(_ & _ & Hc) _] _].
  split; [| split; [| apply or_number_id; exact Hc]];
    intros Heq; rewrite Heq in Hc; discriminate.
Qed.


(** ** More on the event loop and the log *)

Lemma strict_eq_string_true (v : value) (s : string) :
  strict_eq_string v s = true -> v = VStr s.
Proof.
  destruct v as [| | b | n | t | xs | fs]; simpl; try discriminate.
  intros Heq. apply String.eqb_eq in Heq. rewrite Heq. reflexivity.
Qed.

(** The rest of [handle] records one entry, in front of the log. *)
Lemma handle_resume_log req env g :
  (length (receivedLog g) <= MAX_LOG)%nat ->
  exists st nt,
    receivedLog (fst (handle_resume req env g)) =
    take MAX_LOG (log_entry req st nt env (mode (behavior g))
                    :: receivedLog g).
Proof.
  intros Hlen. unfold handle_resume.
  destruct (strict_eq_string (mode (behavior g)) "timeout");
    [| destruct (strict_eq_string (mode (behavior g)) "error")];
    cbn [fst]; rewrite logReceived_log by exact Hlen; eauto.
Qed.

Lemma handle_resume_entries req env g :
  globals_ok g -> Forall entry_ok (receivedLog g) ->
  Forall entry_ok (receivedLog (fst (handle_resume req env g))).
Proof.
  intros [(Hm & _ & _) Hlen] Hall. unfold handle_resume.
  destruct (strict_eq_string (mode (behavior g)) "timeout") eqn:Ht;
    [| destruct (strict_eq_string (mode (behavior g)) "error") eqn:He];
    cbn [fst]; rewrite logReceived_log by exact Hlen;
    apply Forall_take; constructor; try exact Hall.
  - left. apply strict_eq_string_true in Ht. repeat split. exact Ht.
  - right; left. apply strict_eq_string_true in He.
    split; [exact He |]. split; [apply number_truthy_or; reflexivity |].
    eexists. reflexivity.
  - right; right. repeat split.
    destruct Hm as [Hm | [Hm | Hm]]; [exact Hm | |];
      rewrite Hm in *; discriminate.
Qed.


Lemma step_entries s ev :
  server_ok s -> Forall entry_ok (receivedLog (globals s)) ->
  Forall entry_ok (receivedLog (globals (fst (step s ev)))).
Proof.
  intros [Hg _] Hall. destruct ev as [req env | rid env | | b | | |]; simpl;
    try exact Hall.
  - unfold handle.
    destruct (number_gt (delayMs (behavior (globals s))) (Fin 0));
      [exact Hall |].
    pose proof (handle_resume_entries req env _ Hg Hall) as Hall'.
    destruct (handle_resume req env (globals s)). exact Hall'.
  - destruct (pending s !! rid) as [[req ms] |]; [| exact Hall].
    pose proof (handle_resume_entries req env _ Hg Hall) as Hall'.
    destruct (handle_resume req env (globals s)). exact Hall'.
  - pose proof (postBehavior_log b (globals s)) as Hlog.
    destruct (postBehavior b (globals s)). simpl in *. rewrite Hlog.
    exact Hall.
  - constructor.
Qed.

Lemma reachable_entries_ok s :
  reachable s -> Forall entry_ok (receivedLog (globals s)).
Proof.
  induction 1 as [| s ev Hs IH]; [constructor |].
  apply step_entries; [apply reachable_ok; exact Hs | exact IH].
Qed.

(** X9.  Each kind of event touches only its own part of the state: an
    upload and the end of a delay never change the behaviour; a set and a
    reset never change the log, the suspended calls or the numbering; the
    two reads change nothing; clearing empties the log and leaves the
    behaviour and the suspended calls. *)
Theorem step_frame (s : Server) (ev : Event) :
  match ev with
  | Upload _ _ | TimerFired _ _ =>
      behavior (globals (fst (step s ev))) = behavior (globals s)
  | PostBehavior _ | PostBehaviorReset =>
      receivedLog (globals (fst (step s ev))) = receivedLog (globals s)
      /\ pending (fst (step s ev)) = pending s
      /\ next_request (fst (step s ev)) = next_request s
  | GetBehavior | GetInbox => fst (step s ev) = s
  | PostInboxClear =>
      receivedLog (globals (fst (step s ev))) = []
      /\ behavior (globals (fst (step s ev))) = behavior (globals s)
      /\ pending (fst (step s ev)) = pending s
  end.
Proof.
  destruct ev as [req env | rid env | | b | | |]; simpl;
    try (repeat split; reflexivity).
  - unfold handle.
    destruct (number_gt (delayMs (behavior (globals s))) (Fin 0));
      [reflexivity |].
    pose proof (handle_resume_behavior req env (globals s)) as Hb.
    destruct (handle_resume req env (globals s)). exact Hb.
  - destruct (pending s !! rid) as [[req ms] |]; [| reflexivity].
    pose proof (handle_resume_behavior req env (globals s)) as Hb.
    destruct (handle_resume req env (globals s)). exact Hb.
  - pose proof (postBehavior_log b (globals s)) as Hlog.
    destruct (postBehavior b (globals s)). repeat split. exact Hlog.
Qed.

(** X11.  Every entry of the log of a reachable state was made by one of
    the three branches of [handle]: chaosMode timeout with responseStatus
    0 and the timeout note, chaosMode error with a responseStatus that is
    neither 0 nor [NaN] and a note starting with [chaos: ], or chaosMode
    normal with responseStatus 200 and no note.  So responseStatus 0 marks
    exactly the entries of mode timeout. *)
Theorem log_entries_origin (s : Server) (e : LogEntry)
    (Hs : reachable s) (He : e ∈ receivedLog (globals s)) :
  entry_ok e
  /\ (responseStatus e = Fin 0 <-> chaosMode e = VStr "timeout")
  /\ (note e = None <-> chaosMode e = VStr "normal").
Proof.
  pose proof (reachable_entries_ok s Hs) as Hall.
  rewrite Forall_forall in Hall. specialize (Hall e He).
  split; [exact Hall |].
  destruct Hall as [(Hm & Hst & Hn) | [(Hm & Hst & msg & Hn) | (Hm & Hst & Hn)]];
    rewrite Hm, Hn; split; split; intros Heq; try congruence;
    try discriminate; rewrite Heq in Hst; discriminate.
Qed.

(** X12.  In the panel, a row of the log of a reachable state has class
    [timeout] exactly when its entry was recorded in mode timeout, a row
    recorded in mode normal has class [2xx], and a row recorded in mode
    error has the class of its status: [5xx] from 500 on, [4xx] from 400
    to below 500, and [2xx] for every other code. *)
Theorem statusClass_of_log (s : Server) (e : LogEntry)
    (Hs : reachable s) (He : e ∈ receivedLog (globals s)) :
  (statusClass e = "timeout" <-> chaosMode e = VStr "timeout")
  /\ (chaosMode e = VStr "normal" -> statusClass e = "2xx")
  /\ (chaosMode e = VStr "error" ->
      statusClass e =
      if number_ge (responseStatus e) (Fin 500) then "5xx"
      else if number_ge (responseStatus e) (Fin 400) then "4xx"
      else "2xx").
Proof.
  pose proof (reachable_entries_ok s Hs) as Hall.
  rewrite Forall_forall in Hall. specialize (Hall e He).
  assert (Hnz : number_truthy (responseStatus e) = true ->
                strict_eq_number (responseStatus e) (Fin 0) = false).
  { destruct (responseStatus e) as [| | z |]; try reflexivity.
    simpl. intros Hz. apply bool_decide_eq_false. intros [= ->].
    discriminate. }
  unfold statusClass.
  destruct Hall as [(Hm & Hst & _) | [(Hm & Hst & _) | (Hm & Hst & _)]];
    rewrite Hm.
  - rewrite Hst. repeat split; try discriminate; reflexivity.
  - rewrite (Hnz Hst). split; [| split; [discriminate | reflexivity]].
    split; [| discriminate].
    destruct (number_ge _ (Fin 500)); [discriminate |].
    destruct (number_ge _ (Fin 400)); discriminate.
  - rewrite Hst. repeat split; try discriminate; reflexivity.
Qed.

(** X13.  After [POST /api/inbox/clear] the inbox reads as the empty
    array, and the behaviour and the suspended calls are as before: a
    request waiting in its delay through the clear is still recorded when
    the delay ends, as the only entry of the log. *)
Theorem clear_keeps_suspended_calls (s : Server) (rid : nat)
    (req : Request) (ms : number) (env : Env)
    (Hp : pending s !! rid = Some (req, ms)) :
  snd (step (fst (step s PostInboxClear)) GetInbox) =
  Some (ControlReply (ok_json (VArr [])))
  /\ behavior (globals (fst (step s PostInboxClear))) = behavior (globals s)
  /\ pending (fst (step s PostInboxClear)) = pending s
  /\ exists st nt,
       receivedLog (globals
         (fst (step (fst (step s PostInboxClear)) (TimerFired rid env)))) =
       [log_entry req st nt env (mode (behavior (globals s)))].
Proof.
  split; [reflexivity |]. split; [reflexivity |]. split; [reflexivity |].
  rewrite (step_timer _ rid env req ms) by exact Hp. cbn [fst globals].
  destruct (handle_resume_log req env
              (globals (fst (step s PostInboxClear))))
    as (st & nt & Hlog); [simpl; unfold MAX_LOG; lia |].
  exists st, nt. rewrite Hlog. reflexivity.
Qed.

(** X14.  The log is in the order in which the calls of [handle] reach
    their end, not in the order of arrival: when a request waits in its
    delay and a later request is handled at once, the later request is
    recorded first and the earlier one ends up in front of it. *)
Theorem log_follows_completion_order (s : Server) (rid : nat)
    (reqA reqB : Request) (msA : number) (envA envB : Env)
    (Hs : reachable s)
    (HpA : pending s !! rid = Some (reqA, msA))
    (Hnow : number_gt (delayMs (behavior (globals s))) (Fin 0) = false) :
  (rid < next_request s)%nat
  /\ exists stA ntA stB ntB,
       receivedLog (globals
         (fst (step (fst (step s (Upload reqB envB)))
                 (TimerFired rid envA)))) =
       take MAX_LOG
         (log_entry reqA stA ntA envA (mode (behavior (globals s)))
          :: log_entry reqB stB ntB envB (mode (behavior (globals s)))
          :: receivedLog (globals s)).
Proof.
  destruct (reachable_ok s Hs) as [Hg Hnum].
  split; [apply Hnum; rewrite HpA; eexists; reflexivity |].
  rewrite (step_upload_direct s reqB envB Hnow). cbn [fst].
  rewrite (step_timer _ rid envA reqA msA) by exact HpA. cbn [fst globals].
  pose proof (handle_resume_ok reqB envB _ Hg) as Hg1.
  destruct (handle_resume_log reqB envB (globals s) (proj2 Hg))
    as (stB & ntB & HlogB).
  destruct (handle_resume_log reqA envA _ (proj2 Hg1))
    as (stA & ntA & HlogA).
  exists stA, ntA, stB, ntB.
  rewrite HlogA, HlogB, handle_resume_behavior.
  apply (take_app_take MAX_LOG [_]).
Qed.


(** X15.  The name in the response and the name in the log can differ:
    when the file of a request is only under [req.files.pdf], the normal
    branch logs its name and size but answers with [filename: null]. *)
Theorem filename_only_from_req_file (g : Globals) (req : Request)
    (env : Env) (f : File) (n : string)
    (Hmode : mode (behavior g) = VStr "normal")
    (Hfile : file req = None)
    (Hfiles : files req = Some {| pdf := Some f |})
    (Hname : originalname f = Some n)
    (Hn : n <> "") :
  snd (handle_resume req env g) =
  Sent {| status := Fin 200;
          body := VObj [("ok", VBool true);
                        ("message", VStr "PDF received");
                        ("filename", VNull)] |}
  /\ fileName <$> head (receivedLog (fst (handle_resume req env g))) =
     Some (Some n)
  /\ fileSize <$> head (receivedLog (fst (handle_resume req env g))) =
     Some (size f).
Proof.
  rewrite (handle_resume_normal req env g Hmode). cbn [fst snd].
  rewrite logReceived_head. apply string_truthy_true in Hn.
  unfold log_entry, request_file, file_name, file_size, or_string.
  rewrite Hfile, Hfiles. simpl. rewrite Hname, Hn. simpl. rewrite Hn.
  repeat split.
Qed.

(** ** [loadConfig] *)

Section ConfigExtras.
Context `{StringRuntime}.

Lemma normalize_entry_slash p s :
  normalize_entry p = Some s -> starts_with_slash s = true.
Proof.
  destruct p as [| | b | n | t | xs | fs]; simpl; try discriminate.
  destruct (string_truthy (trim t)); [| discriminate].
  destruct (starts_with_slash (trim t)) eqn:Hs; intros [= <-];
    [exact Hs | reflexivity].
Qed.

Lemma filter_Boolean_cons (o : option string) (xs : list (option string)) :
  filter_Boolean (o :: xs) =
  match o with
  | Some s => if string_truthy s then s :: filter_Boolean xs
              else filter_Boolean xs
  | None => filter_Boolean xs
  end.
Proof.
  destruct o as [s |]; [| reflexivity].
  unfold filter_Boolean. simpl. destruct (string_truthy s); reflexivity.
Qed.

Lemma filter_Boolean_slash (ps : list value) :
  Forall (fun p => starts_with_slash p = true)
    (filter_Boolean (map normalize_entry ps)).
Proof.
  induction ps as [| p ps IH]; [constructor |].
  cbn [map]. rewrite filter_Boolean_cons.
  destruct (normalize_entry p) as [s |] eqn:Hp; [| exact IH].
  destruct (string_truthy s); [| exact IH].
  constructor; [exact (normalize_entry_slash p s Hp) | exact IH].
Qed.

Lemma scalar_path_slash p s :
  scalar_path p = Some s -> starts_with_slash s = true.
Proof.
  unfold scalar_path.
  destruct (truthy p) eqn:Ht.
  - destruct (toString_method p) as [t |] eqn:Hstr; simpl; [| discriminate].
    destruct (starts_with_slash (trim t)) eqn:Hs.
    + intros [= <-]. exact Hs.
    + destruct p as [| | [|] | n | t0 | xs | fs]; simpl;
        intros [= <-]; reflexivity.
  - destruct p as [| | [|] | n | t | xs | fs]; try discriminate Ht; simpl;
      intros [= <-]; reflexivity.
Qed.

(** X16.  Whatever [config.json] holds, readable or not, [loadConfig]
    returns at least one upload path, and every path it returns begins
    with a slash. *)
Theorem loadConfig_paths (file : option value) :
  route_paths (loadConfig file) <> []
  /\ Forall (fun p => starts_with_slash p = true)
       (route_paths (loadConfig file)).
Proof.
  unfold loadConfig.
  destruct (file ≫= loadConfig_try) as [route |] eqn:Htry;
    [| split; [discriminate | repeat constructor]].
  destruct file as [cfg |]; [| discriminate]. simpl in Htry.
  unfold loadConfig_try in Htry.
  destruct (toString_method _) as [m |]; [| discriminate].
  simpl in Htry.
  set (p := property _ "path") in Htry.
  assert (Hpaths : forall paths,
            Forall (fun q => starts_with_slash q = true) paths ->
            match paths with [] => ["/upload"] | _ => paths end <> []
            /\ Forall (fun q => starts_with_slash q = true)
                 match paths with [] => ["/upload"] | _ => paths end).
  { intros [| q qs] Hall; [split; [discriminate | repeat constructor] |].
    split; [discriminate | exact Hall]. }
  destruct p as [| | b | n | t | xs | fs] eqn:Hp;
    try (destruct (scalar_path _) as [q |] eqn:Hq; [| discriminate];
         simpl in Htry; injection Htry as <-; cbn [route_paths];
         split; [discriminate |];
         repeat constructor; exact (scalar_path_slash _ q Hq)).
  simpl in Htry. injection Htry as <-. cbn [route_paths].
  apply Hpaths, filter_Boolean_slash.
Qed.

End ConfigExtras.

End Extras.


(** ** The further properties on concrete inputs *)

Lemma escapeHtml_injective_witness :
  @escapeHtml decimal_runtime (VStr "a<b&c") =
  @escapeHtml decimal_runtime (VStr "a<b&c")
  /\ "a<b&c" = "a<b&c".
Proof.
  split; [reflexivity |].
  exact (@escapeHtml_injective decimal_runtime "a<b&c" "a<b&c" eq_refl).
Defined.

Lemma formatBytes_rounding_witness :
  1024 <= 1048575
  /\ 1048575 < 1048576 * 10 ^ 21
  /\ exists w f d unit,
       @formatBytes decimal_runtime (Some (Fin 1048575)) =
       pretty w +:+ "." +:+ pretty f +:+ unit
       /\ 1 <= w /\ 0 <= f <= 9
       /\ ((1048575 < 1048576 /\ d = 1024 /\ unit = " KB")
           \/ (1048576 <= 1048575 /\ d = 1048576 /\ unit = " MB"))
       /\ - d <= 2 * (10 * 1048575 - d * (10 * w + f)) < d.
Proof.
  assert (Hz : 1024 <= 1048575) by lia.
  assert (Hmax : 1048575 < 1048576 * 10 ^ 21) by reflexivity.
  split; [exact Hz |]. split; [exact Hmax |].
  exact (@formatBytes_rounding decimal_runtime 1048575 Hz Hmax).
Defined.

Lemma postBehavior_nothing_provided_witness :
  not_nullish (get (body1 "errorCode" VNull) "mode") = false
  /\ not_nullish (get (body1 "errorCode" VNull) "errorCode") = false
  /\ @postBehavior decimal_runtime (body1 "errorCode" VNull) globals_503 =
     (globals_503, Sent (getBehavior globals_503)).
Proof.
  split; [reflexivity |]. split; [reflexivity |].
  exact (@postBehavior_nothing_provided decimal_runtime
           (body1 "errorCode" VNull) globals_503
           eq_refl eq_refl eq_refl eq_refl).
Defined.

Lemma errorCode_never_falsy_witness :
  @reachable decimal_runtime failing_server
  /\ errorCode (behavior (globals failing_server)) <> Fin 0.
Proof.
  split; [exact failing_server_reachable |].
  exact (proj1 (proj2 (@errorCode_never_falsy decimal_runtime
                         failing_server failing_server_reachable))).
Defined.

Lemma hung_server_reachable : @reachable decimal_runtime hung_server.
Proof. exact (reachable_step hanging_server _ hanging_server_reachable). Qed.

Lemma hung_entry_logged : hung_entry ∈ receivedLog (globals hung_server).
Proof. apply list_elem_of_here. Qed.

Lemma log_entries_origin_witness :
  @reachable decimal_runtime hung_server
  /\ hung_entry ∈ receivedLog (globals hung_server)
  /\ (responseStatus hung_entry = Fin 0
      <-> chaosMode hung_entry = VStr "timeout").
Proof.
  split; [exact hung_server_reachable |].
  split; [exact hung_entry_logged |].
  exact (proj1 (proj2 (@log_entries_origin decimal_runtime hung_server
                         hung_entry hung_server_reachable
                         hung_entry_logged))).
Defined.

Lemma statusClass_of_log_witness :
  @reachable decimal_runtime hung_server
  /\ hung_entry ∈ receivedLog (globals hung_server)
  /\ (statusClass hung_entry = "timeout"
      <-> chaosMode hung_entry = VStr "timeout").
Proof.
  split; [exact hung_server_reachable |].
  split; [exact hung_entry_logged |].
  exact (proj1 (@statusClass_of_log decimal_runtime hung_server hung_entry
                  hung_server_reachable hung_entry_logged)).
Defined.

Lemma clear_keeps_suspended_calls_witness :
  pending waiting_server !! 0%nat = Some (sample_request, Fin 1000)
  /\ exists st nt,
       receivedLog (globals
         (fst (@step decimal_runtime
                 (fst (@step decimal_runtime waiting_server PostInboxClear))
                 (TimerFired 0 (sample_env 1))))) =
       [log_entry sample_request st nt (sample_env 1)
          (mode (behavior (globals waiting_server)))].
Proof.
  split; [reflexivity |].
  exact (proj2 (proj2 (proj2
    (@clear_keeps_suspended_calls decimal_runtime waiting_server 0%nat
       sample_request (Fin 1000) (sample_env 1) eq_refl)))).
Defined.

Lemma released_server_reachable : @reachable decimal_runtime released_server.
Proof.
  exact (reachable_step _ _
           (reachable_step _ _ delayed_server_reachable)).
Qed.

Lemma log_follows_completion_order_witness :
  @reachable decimal_runtime released_server
  /\ pending released_server !! 0%nat = Some (sample_request, Fin 1000)
  /\ number_gt (delayMs (behavior (globals released_server))) (Fin 0) = false
  /\ (0 < next_request released_server)%nat.
Proof.
  split; [exact released_server_reachable |].
  split; [reflexivity |]. split; [reflexivity |].
  exact (proj1 (@log_follows_completion_order decimal_runtime
                  released_server 0%nat sample_request bare_request
                  (Fin 1000) (sample_env 2) (sample_env 1)
                  released_server_reachable eq_refl eq_refl)).
Defined.

Lemma filename_only_from_req_file_witness :
  mode (behavior init_globals) = VStr "normal"
  /\ file legacy_request = None
  /\ files legacy_request = Some {| pdf := Some sample_file |}
  /\ originalname sample_file = Some "invoice.pdf"
  /\ "invoice.pdf" <> ""
  /\ snd (@handle_resume decimal_runtime legacy_request (sample_env 0)
            init_globals) =
     Sent {| status := Fin 200;
             body := VObj [("ok", VBool true);
                           ("message", VStr "PDF received");
                           ("filename", VNull)] |}
  /\ fileName <$>
       head (receivedLog
               (fst (@handle_resume decimal_runtime legacy_request
                       (sample_env 0) init_globals))) =
     Some (Some "invoice.pdf").
Proof.
  assert (Hn : "invoice.pdf" <> "") by discriminate.
  split; [reflexivity |]. split; [reflexivity |]. split; [reflexivity |].
  split; [reflexivity |]. split; [exact Hn |].
  destruct (@filename_only_from_req_file decimal_runtime init_globals
              legacy_request
              (sample_env 0) sample_file "invoice.pdf"
              eq_refl eq_refl eq_refl eq_refl Hn) as (Hres & Hname & _).
  split; [exact Hres | exact Hname].
Defined.
